(** * Full query cache plugin (ApolloServerPluginFullQueryCache.ts)

    A shallow embedding of the plugin: the cache key derivation
    ([sha], [cacheKey]), the per-request closure state created by
    [requestDidStart], the lookup performed by [execute] and the
    post-execution guard [willSendResponse], together with the library
    functions they call (SHA-256, [JSON.stringify], the prefixing
    key-value cache). *)

From Stdlib Require Import ZArith Ascii String List Lia DecimalString.
From stdpp Require Import base option list strings gmap.
From Stdlib Require Import DecimalZ DecimalPos.

Set Warnings "-register-all".

(** ** SHA-256 (FIPS 180-4), as computed by
       [createHash('sha256').update(s).digest('hex')].

    Words are 32-bit unsigned integers held in [Z]; every addition
    wraps modulo 2^32. *)
Module SHA256.
Local Open Scope Z_scope.

Definition wrap32 (x : Z) : Z := x mod 2 ^ 32.
Definition add32 (x y : Z) : Z := wrap32 (x + y).
Definition rotr (n x : Z) : Z :=
  Z.lor (Z.shiftr x n) (wrap32 (Z.shiftl x (32 - n))).
Definition not32 (x : Z) : Z := Z.lxor x (2 ^ 32 - 1).

Definition choose (x y z : Z) : Z :=
  Z.lxor (Z.land x y) (Z.land (not32 x) z).
Definition majority (x y z : Z) : Z :=
  Z.lxor (Z.lxor (Z.land x y) (Z.land x z)) (Z.land y z).
Definition bsig0 (x : Z) : Z :=
  Z.lxor (Z.lxor (rotr 2 x) (rotr 13 x)) (rotr 22 x).
Definition bsig1 (x : Z) : Z :=
  Z.lxor (Z.lxor (rotr 6 x) (rotr 11 x)) (rotr 25 x).
Definition ssig0 (x : Z) : Z :=
  Z.lxor (Z.lxor (rotr 7 x) (rotr 18 x)) (Z.shiftr x 3).
Definition ssig1 (x : Z) : Z :=
  Z.lxor (Z.lxor (rotr 17 x) (rotr 19 x)) (Z.shiftr x 10).

(** The first sixty-four primes. *)
Definition primes : list Z :=
  [
    2; 3; 5; 7; 11; 13; 17; 19; 23; 29; 31; 37;
    41; 43; 47; 53; 59; 61; 67; 71; 73; 79; 83; 89;
    97; 101; 103; 107; 109; 113; 127; 131; 137; 139; 149; 151;
    157; 163; 167; 173; 179; 181; 191; 193; 197; 199; 211; 223;
    227; 229; 233; 239; 241; 251; 257; 263; 269; 271; 277; 281;
    283; 293; 307; 311 ].

(** The integer cube root of [n], built bit by bit below bit [b]. *)
Fixpoint cube_root_bits (b : nat) (n r : Z) : Z :=
  match b with
  | O => r
  | S b' =>
      let c := r + 2 ^ Z.of_nat b' in
      cube_root_bits b' n (if c * c * c <=? n then c else r)
  end.

Definition cube_root (n : Z) : Z := cube_root_bits 36 n 0.

(** Section 4.2.2: the first 32 bits of the fractional part of the
    cube root of each prime. *)
Definition round_constants : list Z :=
  List.map (fun q => wrap32 (cube_root (q * 2 ^ 96))) primes.

(** The chaining value: eight 32-bit words. *)
Record chain := Chain {
  ha : Z; hb : Z; hc : Z; hd : Z; he : Z; hf : Z; hg : Z; hh : Z
}.

(** Section 5.3.3: the first 32 bits of the fractional part of the
    square root of each of the first eight primes. *)
Definition initial_word (i : nat) : Z :=
  wrap32 (Z.sqrt (nth i primes 0 * 2 ^ 64)).

Definition initial_chain : chain :=
  Chain (initial_word 0) (initial_word 1) (initial_word 2) (initial_word 3)
        (initial_word 4) (initial_word 5) (initial_word 6) (initial_word 7).

(** Octets of the message: the string is already a sequence of UTF-8
    octets. *)
Fixpoint octets (s : string) : list Z :=
  match s with
  | EmptyString => []
  | String c r => Z.of_N (N_of_ascii c) :: octets r
  end.

(** Big-endian octets of [x], [n] of them. *)
Fixpoint be_octets (n : nat) (x : Z) : list Z :=
  match n with
  | O => []
  | S k => (Z.shiftr x (8 * Z.of_nat k)) mod 256 :: be_octets k x
  end.

(** Section 5.1.1: append the bit 1, then zero bits up to 56 mod 64
    octets, then the bit length as a 64-bit big-endian integer. *)
Definition pad (m : list Z) : list Z :=
  let len := Z.of_nat (length m) in
  m ++ 0x80 :: repeat 0 (Z.to_nat ((55 - len) mod 64)) ++ be_octets 8 (8 * len).

Fixpoint to_words (bs : list Z) : list Z :=
  match bs with
  | b3 :: b2 :: b1 :: b0 :: r =>
      (((b3 * 256 + b2) * 256 + b1) * 256 + b0) :: to_words r
  | _ => []
  end.

(** The message schedule, newest word first: [extend k rw] adds [k]
    words to the reversed schedule [rw]. *)
Fixpoint extend (k : nat) (rw : list Z) : list Z :=
  match k with
  | O => rw
  | S k' =>
      let w := add32 (add32 (ssig1 (nth 1 rw 0)) (nth 6 rw 0))
                     (add32 (ssig0 (nth 14 rw 0)) (nth 15 rw 0)) in
      extend k' (w :: rw)
  end.

Definition schedule (block : list Z) : list Z :=
  rev (extend 48 (rev block)).

Definition round (s : chain) (kw : Z * Z) : chain :=
  let t1 := add32 (add32 (add32 (hh s) (bsig1 (he s)))
                         (add32 (choose (he s) (hf s) (hg s)) (fst kw)))
                  (snd kw) in
  let t2 := add32 (bsig0 (ha s)) (majority (ha s) (hb s) (hc s)) in
  Chain (add32 t1 t2) (ha s) (hb s) (hc s)
        (add32 (hd s) t1) (he s) (hf s) (hg s).

Definition compress (h : chain) (block : list Z) : chain :=
  let s := fold_left round (combine round_constants (schedule block)) h in
  Chain (add32 (ha h) (ha s)) (add32 (hb h) (hb s))
        (add32 (hc h) (hc s)) (add32 (hd h) (hd s))
        (add32 (he h) (he s)) (add32 (hf h) (hf s))
        (add32 (hg h) (hg s)) (add32 (hh h) (hh s)).

Fixpoint blocks (n : nat) (h : chain) (ws : list Z) : chain :=
  match n with
  | O => h
  | S k => blocks k (compress h (firstn 16 ws)) (skipn 16 ws)
  end.

Definition digest_words (m : list Z) : list Z :=
  let ws := to_words (pad m) in
  let h := blocks (Nat.div (length ws) 16) initial_chain ws in
  [ha h; hb h; hc h; hd h; he h; hf h; hg h; hh h].

(** Lowercase hexadecimal output, eight digits per word. *)
Definition hex_digit (x : Z) : ascii :=
  match x mod 16 with
  | 0 => "0" | 1 => "1" | 2 => "2" | 3 => "3"
  | 4 => "4" | 5 => "5" | 6 => "6" | 7 => "7"
  | 8 => "8" | 9 => "9" | 10 => "a" | 11 => "b"
  | 12 => "c" | 13 => "d" | 14 => "e" | _ => "f"
  end%char.

Definition hex_word (w : Z) (rest : string) : string :=
  String (hex_digit (Z.shiftr w 28)) (String (hex_digit (Z.shiftr w 24))
 (String (hex_digit (Z.shiftr w 20)) (String (hex_digit (Z.shiftr w 16))
 (String (hex_digit (Z.shiftr w 12)) (String (hex_digit (Z.shiftr w 8))
 (String (hex_digit (Z.shiftr w 4))  (String (hex_digit w) rest))))))).

Definition hex (ws : list Z) : string := fold_right hex_word EmptyString ws.

Definition sha256_hex (s : string) : string := hex (digest_words (octets s)).

End SHA256.


(** ** JavaScript values and [JSON.stringify] *)

(** Plain data as it flows through the plugin. A [JNum] holds an
    integer-valued number in the safe range, printed in decimal. The
    list of a [JObj] is the object's own enumerable properties in
    enumeration order (insertion order for the non-index keys used
    here). *)
Inductive jsval : Type :=
  | JUndefined
  | JNull
  | JBool (b : bool)
  | JNum (z : Z)
  | JStr (s : string)
  | JArr (items : list jsval)
  | JObj (props : list (string * jsval)).

Abbreviation jsobject := (list (string * jsval)).

(** [ToBoolean], as used by [if (x)], [!x] and [a || b]. *)
Definition truthy (v : jsval) : bool :=
  match v with
  | JUndefined | JNull => false
  | JBool b => b
  | JNum z => negb (Z.eqb z 0)
  | JStr s => negb (String.eqb s "")
  | JArr _ | JObj _ => true
  end.

Module JSON.

Definition dquote : ascii := "034"%char.
Definition backslash : ascii := "092"%char.

Definition hex2 (n : N) : string :=
  String (SHA256.hex_digit (Z.of_N (N.div n 16)))
         (String (SHA256.hex_digit (Z.of_N n)) EmptyString).

(** QuoteJSONString, one code unit at a time. Octets of multi-byte
    UTF-8 sequences are at least 128 and pass through. *)
Definition escape_char (c : ascii) : string :=
  let n := N_of_ascii c in
  if (n =? 34)%N then String backslash (String dquote EmptyString)
  else if (n =? 92)%N then String backslash (String backslash EmptyString)
  else if (n =? 8)%N then String backslash "b"
  else if (n =? 9)%N then String backslash "t"
  else if (n =? 10)%N then String backslash "n"
  else if (n =? 12)%N then String backslash "f"
  else if (n =? 13)%N then String backslash "r"
  else if (n <? 32)%N then String backslash ("u00" +:+ hex2 n)
  else String c EmptyString.

Fixpoint escape (s : string) : string :=
  match s with
  | EmptyString => EmptyString
  | String c r => escape_char c +:+ escape r
  end.

Definition quote (s : string) : string :=
  String dquote (escape s +:+ String dquote EmptyString).

Definition number (z : Z) : string := NilEmpty.string_of_int (Z.to_int z).

Fixpoint join (l : list string) : string :=
  match l with
  | [] => EmptyString
  | [x] => x
  | x :: r => x +:+ "," +:+ join r
  end.

(** An array element that does not serialize is written [null]. *)
Definition element (o : option string) : string := default "null" o.

(** An object property that does not serialize is left out. *)
Definition member (k : string) (o : option string) : option string :=
  (fun t => quote k +:+ ":" +:+ t) <$> o.

(** SerializeJSONProperty without indentation; [None] is [undefined]. *)
Fixpoint stringify (v : jsval) : option string :=
  match v with
  | JUndefined => None
  | JNull => Some "null"
  | JBool true => Some "true"
  | JBool false => Some "false"
  | JNum z => Some (number z)
  | JStr s => Some (quote s)
  | JArr items =>
      Some ("[" +:+ join (List.map (fun x => element (stringify x)) items)
                +:+ "]")
  | JObj props =>
      Some ("{" +:+ join (omap (fun kv => member (fst kv) (stringify (snd kv)))
                               props)
                +:+ "}")
  end.

Definition members (props : jsobject) : list string :=
  omap (fun kv => member (fst kv) (stringify (snd kv))) props.

(** [JSON.stringify] of an object always yields a string. *)
Definition stringify_object (props : jsobject) : string :=
  "{" +:+ join (members props) +:+ "}".

End JSON.

(** Property assignment [o[k] = v]: an existing property keeps its
    place, a new one goes last. *)
Fixpoint obj_set (k : string) (v : jsval) (o : jsobject) : jsobject :=
  match o with
  | [] => [(k, v)]
  | (k', v') :: r =>
      if String.eqb k k' then (k, v) :: r else (k', v') :: obj_set k v r
  end.

Fixpoint obj_get (k : string) (o : jsobject) : option jsval :=
  match o with
  | [] => None
  | (k', v') :: r => if String.eqb k k' then Some v' else obj_get k r
  end.

(** Object spread [{ ...src }] into [target]: copy the own properties
    in order. *)
Definition spread_into (target src : jsobject) : jsobject :=
  fold_left (fun acc kv => obj_set (fst kv) (snd kv) acc) src target.

(** An object as a finite map from property names to values. *)
Definition as_map (o : jsobject) : gmap string jsval := list_to_map o.

(** ** Results of calls that may throw (or promises that may reject) *)

Inductive JsError : Type :=
  | HookFailure (reason : string)
  | SyntaxError
  | Error (message : string).

Inductive Outcome (A : Type) : Type :=
  | Returned (a : A)
  | Thrown (e : JsError).
Arguments Returned {A} a.
Arguments Thrown {A} e.

(** ** The world the plugin runs in *)

(** A [KeyValueCache] is a reference to a backing store. *)
Definition KeyValueCache := nat.

(** The variables closed over by one request listener. *)
Record Env := {
  invokedHooks : bool;
  sessionId : option string;
  extraCacheKeyData : jsval
}.

(** Calls that reach a backing store, oldest first. *)
Inductive Event : Type :=
  | StoreGet (c : KeyValueCache) (key : string)
  | StoreSet (c : KeyValueCache) (key value : string).

Record World := {
  stores : KeyValueCache -> gmap string string;
  envs : nat -> Env;
  next_env : nat;
  trace : list Event
}.

Definition M (A : Type) : Type := World -> Outcome A * World.

Definition ret {A} (a : A) : M A := fun w => (Returned a, w).

Definition throw {A} (e : JsError) : M A := fun w => (Thrown e, w).

Definition bind {A B} (m : M A) (f : A -> M B) : M B :=
  fun w =>
    match m w with
    | (Returned a, w') => f a w'
    | (Thrown e, w') => (Thrown e, w')
    end.

(** [await] of a hook's result. *)
Definition await {A} (o : Outcome A) : M A := fun w => (o, w).

Notation "x <- m ;; k" := (bind m (fun x => k))
  (at level 100, m at next level, right associativity).
Notation "m ;;; k" := (bind m (fun _ => k))
  (at level 100, right associativity).

Definition upd {A} (f : nat -> A) (i : nat) (a : A) : nat -> A :=
  fun j => if Nat.eqb j i then a else f j.

Definition get_env (l : nat) : M Env := fun w => (Returned (envs w l), w).

Definition modify_env (l : nat) (f : Env -> Env) : M unit :=
  fun w =>
    (Returned tt,
     {| stores := stores w; envs := upd (envs w) l (f (envs w l));
        next_env := next_env w; trace := trace w |}).

Definition set_invokedHooks (b : bool) (e : Env) : Env :=
  {| invokedHooks := b; sessionId := sessionId e;
     extraCacheKeyData := extraCacheKeyData e |}.
Definition set_sessionId (s : option string) (e : Env) : Env :=
  {| invokedHooks := invokedHooks e; sessionId := s;
     extraCacheKeyData := extraCacheKeyData e |}.
Definition set_extraCacheKeyData (x : jsval) (e : Env) : Env :=
  {| invokedHooks := invokedHooks e; sessionId := sessionId e;
     extraCacheKeyData := x |}.

(** The store contract: [get] answers the value or [undefined]; [set]
    stores a value. *)
Definition store_get (c : KeyValueCache) (key : string) : M (option string) :=
  fun w =>
    (Returned (stores w c !! key),
     {| stores := stores w; envs := envs w; next_env := next_env w;
        trace := trace w ++ [StoreGet c key] |}).

Definition store_set (c : KeyValueCache) (key value : string) : M unit :=
  fun w =>
    (Returned tt,
     {| stores := upd (stores w) c (<[key := value]> (stores w c));
        envs := envs w; next_env := next_env w;
        trace := trace w ++ [StoreSet c key value] |}).

(** Modelled from the spec: [PrefixingKeyValueCache] of
    apollo-server-caching, whose source is not part of this package.
    Every key is prefixed with a fixed namespace token before it
    reaches the wrapped store. *)
Record PrefixingKeyValueCache := {
  wrapped : KeyValueCache;
  prefix : string
}.

Definition prefixing_get (p : PrefixingKeyValueCache) (key : string)
  : M (option string) :=
  store_get (wrapped p) (prefix p +:+ key).

Definition prefixing_set (p : PrefixingKeyValueCache) (key value : string)
  : M unit :=
  store_set (wrapped p) (prefix p +:+ key) value.

(** ** The plugin *)

Inductive SessionMode : Type :=
  | NoSession
  | Private
  | AuthenticatedPublic.

(** The numeric value of an enum member. *)
Definition SessionMode_value (m : SessionMode) : Z :=
  match m with
  | NoSession => 0
  | Private => 1
  | AuthenticatedPublic => 2
  end.

Definition sha (s : string) : string := SHA256.sha256_hex s.

(** The object literal [{ ...baseCacheKey, sessionMode }]. *)
Definition keyed (baseCacheKey : jsobject) (sessionMode : SessionMode)
  : jsobject :=
  obj_set "sessionMode" (JNum (SessionMode_value sessionMode))
          (spread_into [] baseCacheKey).

Definition cacheKey (baseCacheKey : jsobject) (sessionMode : SessionMode)
  : string :=
  sha (JSON.stringify_object (keyed baseCacheKey sessionMode)).

Record GraphQLRequest := {
  variables : option jsobject
}.

Record GraphQLResponse := {
  data : jsval;
  errors : jsval
}.

(** The value of a [string | null]. *)
Definition of_nullable (o : option string) : jsval :=
  match o with
  | Some s => JStr s
  | None => JNull
  end.

(** The value of an optional object. *)
Definition of_optional (o : option jsobject) : jsval :=
  match o with
  | Some props => JObj props
  | None => JUndefined
  end.

Definition not_called_message : string :=
  "willSendResponse called without error, but execute not called?".

Section Plugin.

(** The parsed query document and the GraphQL printer. *)
Context {DocumentNode : Type}.
Variable print : DocumentNode -> string.

(** [JSON.parse]; it throws a [SyntaxError] on malformed text. *)
Variable JSON_parse : string -> Outcome jsval.

Record GraphQLRequestContext := {
  document : DocumentNode;
  operationName : option string;
  request : GraphQLRequest;
  response : GraphQLResponse;
  cache : KeyValueCache
}.

(** The plugin's options. A hook answers with a value or fails; what
    it answers depends on the request context only. *)
Record Options := {
  options_cache : option KeyValueCache;
  options_sessionId :
    option (GraphQLRequestContext -> Outcome (option string));
  options_extraCacheKeyData :
    option (GraphQLRequestContext -> Outcome jsval)
}.

(** What [requestDidStart] hands back: the closure environment of the
    listener's methods and the cache they share. *)
Record Listener := {
  listener_env : nat;
  listener_cache : PrefixingKeyValueCache
}.

Definition fresh_env : Env :=
  {| invokedHooks := false; sessionId := None; extraCacheKeyData := JNull |}.

Definition requestDidStart (options : Options)
    (outerRequestContext : GraphQLRequestContext) : M Listener :=
  fun w =>
    let cache' :=
      {| wrapped := default (cache outerRequestContext) (options_cache options);
         prefix := "fqc:" |} in
    (Returned {| listener_env := next_env w; listener_cache := cache' |},
     {| stores := stores w; envs := upd (envs w) (next_env w) fresh_env;
        next_env := S (next_env w); trace := trace w |}).

Definition cacheGet (this : Listener) (baseCacheKey : jsobject)
    (sessionMode : SessionMode) : M jsval :=
  let key := cacheKey baseCacheKey sessionMode in
  value <- prefixing_get (listener_cache this) key ;;
  match value with
  | None => ret JNull
  | Some text => await (JSON_parse text)
  end.

Definition baseCacheKey_of (requestContext : GraphQLRequestContext)
    (extra : jsval) : jsobject :=
  [ ("document", JStr (print (document requestContext)));
    ("operationName", of_nullable (operationName requestContext));
    ("variables", of_optional (variables (request requestContext)));
    ("extra", extra) ].

Definition is_null (v : jsval) : bool :=
  match v with
  | JNull => true
  | _ => false
  end.

Definition execute (options : Options) (this : Listener)
    (requestContext : GraphQLRequestContext) : M jsval :=
  let l := listener_env this in
  match options_sessionId options with
  | Some hook =>
      s <- await (hook requestContext) ;; modify_env l (set_sessionId s)
  | None => ret tt
  end ;;;
  match options_extraCacheKeyData options with
  | Some hook =>
      x <- await (hook requestContext) ;; modify_env l (set_extraCacheKeyData x)
  | None => ret tt
  end ;;;
  modify_env l (set_invokedHooks true) ;;;
  env <- get_env l ;;
  let baseCacheKey := baseCacheKey_of requestContext (extraCacheKeyData env) in
  match sessionId env with
  | None => cacheGet this baseCacheKey NoSession
  | Some sid =>
      privateResponse <-
        cacheGet this
                 (obj_set "sessionId" (JStr sid) (spread_into [] baseCacheKey))
                 Private ;;
      if negb (is_null privateResponse) then ret privateResponse
      else cacheGet this baseCacheKey AuthenticatedPublic
  end.

Definition willSendResponse (this : Listener)
    (requestContext : GraphQLRequestContext) : M unit :=
  let response' := response requestContext in
  if truthy (errors response') || negb (truthy (data response')) then ret tt
  else
    env <- get_env (listener_env this) ;;
    if negb (invokedHooks env) then throw (Error not_called_message)
    else ret tt.

(** *** Vocabulary of the statements *)

(** The key that reaches the wrapped store for a lookup. *)
Definition store_key (c : PrefixingKeyValueCache) (baseCacheKey : jsobject)
    (sessionMode : SessionMode) : string :=
  prefix c +:+ cacheKey baseCacheKey sessionMode.

(** The store read a lookup issues. *)
Definition read_at (this : Listener) (baseCacheKey : jsobject)
    (sessionMode : SessionMode) : Event :=
  StoreGet (wrapped (listener_cache this))
           (store_key (listener_cache this) baseCacheKey sessionMode).

(** What a lookup answers for the value found in the store. *)
Definition parsed_entry (value : option string) : Outcome jsval :=
  match value with
  | None => Returned JNull
  | Some text => JSON_parse text
  end.

(** The entry a lookup finds in world [w]. *)
Definition entry_at (this : Listener) (w : World) (baseCacheKey : jsobject)
    (sessionMode : SessionMode) : Outcome jsval :=
  parsed_entry
    (stores w (wrapped (listener_cache this))
       !! store_key (listener_cache this) baseCacheKey sessionMode).

(** The value a hook leaves in its closure variable: the hook's result
    when it is configured, the variable's current value when not. *)
Definition resolve {A} (hook : option (GraphQLRequestContext -> Outcome A))
    (requestContext : GraphQLRequestContext) (current : A) : Outcome A :=
  match hook with
  | Some h => h requestContext
  | None => Returned current
  end.

(** The hook calls that open [execute], for the listener environment
    [l], followed by [K] on the environment they leave. *)
Definition hooks_then {B} (options : Options)
    (requestContext : GraphQLRequestContext) (l : nat) (K : Env -> M B) : M B :=
  match options_sessionId options with
  | Some hook =>
      s <- await (hook requestContext) ;; modify_env l (set_sessionId s)
  | None => ret tt
  end ;;;
  match options_extraCacheKeyData options with
  | Some hook =>
      x <- await (hook requestContext) ;; modify_env l (set_extraCacheKeyData x)
  | None => ret tt
  end ;;;
  modify_env l (set_invokedHooks true) ;;;
  env <- get_env l ;; K env.

(** The part of [execute] that follows the hooks, as a function of the
    listener's environment. *)
Definition lookup_phase (this : Listener)
    (requestContext : GraphQLRequestContext) (env : Env) : M jsval :=
  let baseCacheKey :=
    baseCacheKey_of requestContext (extraCacheKeyData env) in
  match sessionId env with
  | None => cacheGet this baseCacheKey NoSession
  | Some sid =>
      privateResponse <-
        cacheGet this
                 (obj_set "sessionId" (JStr sid) (spread_into [] baseCacheKey))
                 Private ;;
      if negb (is_null privateResponse) then ret privateResponse
      else cacheGet this baseCacheKey AuthenticatedPublic
  end.

(** The base cache key augmented with the session, [{ ...baseCacheKey,
    sessionId }]. *)
Definition with_session (baseCacheKey : jsobject) (sid : string) : jsobject :=
  obj_set "sessionId" (JStr sid) (spread_into [] baseCacheKey).

(** A key structure respects the partitions when the object that is
    serialized carries a session id (a string) under mode [Private]
    and carries none under the other two modes. *)
Definition partitioned (baseCacheKey : jsobject) (sessionMode : SessionMode)
  : Prop :=
  match sessionMode with
  | Private =>
      exists s,
        obj_get "sessionId" (keyed baseCacheKey sessionMode) = Some (JStr s)
  | NoSession | AuthenticatedPublic =>
      obj_get "sessionId" (keyed baseCacheKey sessionMode) = None
  end.

(** The reads of a sequence of lookups. *)
Definition reads_at (this : Listener)
    (lookups : list (jsobject * SessionMode)) : list Event :=
  List.map (fun bm => read_at this (fst bm) (snd bm)) lookups.

(** Two requests have the same base cache key as maps: the same
    printed document, operation name and extra data, and variables
    with the same value under every name, in whatever order the names
    were inserted. *)
Definition same_base_key (rc1 : GraphQLRequestContext) (extra1 : jsval)
    (rc2 : GraphQLRequestContext) (extra2 : jsval) : Prop :=
  print (document rc1) = print (document rc2) /\
  operationName rc1 = operationName rc2 /\
  as_map <$> variables (request rc1) = as_map <$> variables (request rc2) /\
  extra1 = extra2.

(** The names of the variables, in insertion order. *)
Definition variable_names (rc : GraphQLRequestContext) : option (list string) :=
  (fun vars : jsobject => vars.*1) <$> variables (request rc).

End Plugin.

Definition is_write (ev : Event) : bool :=
  match ev with
  | StoreSet _ _ _ => true
  | StoreGet _ _ => false
  end.

(** The store writes recorded in a trace. *)
Definition writes (t : list Event) : list Event := List.filter is_write t.

(** World [w] after the store calls [evs]; none of them is a write. *)
Definition logged (w : World) (evs : list Event) : World :=
  {| stores := stores w; envs := envs w; next_env := next_env w;
     trace := trace w ++ evs |}.

(** A response the plugin may cache: no [errors] and a [data] payload. *)
Definition eligible (r : GraphQLResponse) : bool :=
  negb (truthy (errors r)) && truthy (data r).

(** The fields of a key, in the order the plugin lists them: the base
    cache key, the session id when there is one, the session mode. *)
Definition key_fields (doc : string) (opName : option string)
    (vars : option jsobject) (extra : jsval) (sid : option string)
    (sessionMode : SessionMode) : jsobject :=
  [ ("document", JStr doc);
    ("operationName", of_nullable opName);
    ("variables", of_optional vars);
    ("extra", extra) ]
  ++ match sid with
     | Some s => [("sessionId", JStr s)]
     | None => []
     end
  ++ [("sessionMode", JNum (SessionMode_value sessionMode))].

Definition lower_hex (c : ascii) : bool :=
  let n := N_of_ascii c in
  ((48 <=? n) && (n <=? 57) || (97 <=? n) && (n <=? 102))%N.

Fixpoint all_chars (p : ascii -> bool) (s : string) : bool :=
  match s with
  | EmptyString => true
  | String c r => p c && all_chars p r
  end.

(** Text with every apostrophe replaced by a double quote. *)
Fixpoint with_dquotes (s : string) : string :=
  match s with
  | EmptyString => EmptyString
  | String c r =>
      String (if Ascii.eqb c "'" then JSON.dquote else c) (with_dquotes r)
  end.

(** The serialized key structure of the anonymous request [{ a }]. *)
Definition anonymous_text : string :=
  with_dquotes
    "{'document':'{ a }','operationName':null,'variables':{},'extra':null,'sessionMode':0}".

(** The serialized key structure of the same request when it carries
    no [variables] property: the member is left out. *)
Definition bare_text : string :=
  with_dquotes
    "{'document':'{ a }','operationName':null,'extra':null,'sessionMode':0}".

(** ** Sample requests *)
Module Sample.

(** Documents are kept in printed form. *)
Definition print (doc : string) : string := doc.

Definition cached_text : string := with_dquotes "{'data':{'a':1}}".
Definition cached_response : jsval := JObj [("data", JObj [("a", JNum 1)])].

(** [JSON.parse] on the texts the sample stores hold; any other text
    is rejected. *)
Definition parse (text : string) : Outcome jsval :=
  if String.eqb text cached_text then Returned cached_response
  else if String.eqb text "null" then Returned JNull
  else Thrown SyntaxError.

Definition ok_response : GraphQLResponse :=
  {| data := JObj [("a", JNum 1)]; errors := JUndefined |}.

Definition error_response : GraphQLResponse :=
  {| data := JUndefined;
     errors := JArr [JObj [("message", JStr "boom")]] |}.

Definition context (vars : option jsobject) (r : GraphQLResponse)
  : @GraphQLRequestContext string :=
  {| document := "{ a }"; operationName := None;
     request := {| variables := vars |}; response := r; cache := 0 |}.

Definition anonymous : @Options string :=
  {| options_cache := None; options_sessionId := None;
     options_extraCacheKeyData := None |}.

(** Every request is logged in as [u1]. *)
Definition logged_in : @Options string :=
  {| options_cache := None;
     options_sessionId := Some (fun _ => Returned (Some "u1"));
     options_extraCacheKeyData := None |}.

Definition empty_world : World :=
  {| stores := fun _ => ∅; envs := fun _ => fresh_env; next_env := 0;
     trace := [] |}.

(** The first listener the plugin hands out. *)
Definition first : Listener :=
  {| listener_env := 0;
     listener_cache := {| wrapped := 0; prefix := "fqc:" |} |}.

Definition second : Listener :=
  {| listener_env := 1;
     listener_cache := {| wrapped := 0; prefix := "fqc:" |} |}.

Definition base : jsobject :=
  baseCacheKey_of print (context (Some []) ok_response) JNull.

(** A world whose store holds a public entry for [base] and no private
    one. *)
Definition public_world : World :=
  {| stores := fun _ =>
       {[ store_key (listener_cache first) base AuthenticatedPublic
            := cached_text ]};
     envs := fun _ => fresh_env; next_env := 1; trace := [] |}.

Definition ab : jsobject := [("a", JNum 1); ("b", JNum 2)].
Definition ba : jsobject := [("b", JNum 2); ("a", JNum 1)].

(** A request without variables entries whose response is cacheable. *)
Definition request_ok := context (Some []) ok_response.

(** A request that failed. *)
Definition request_failed := context None error_response.

(** A request that carries no [variables] property. *)
Definition request_bare := context None ok_response.

(** Two requests whose variables were written in different orders. *)
Definition request_ab := context (Some ab) ok_response.
Definition request_ba := context (Some ba) ok_response.

(** The same variables as [request_ab], with a failed response. *)
Definition request_ab_failed := context (Some ab) error_response.

(** The world after the first listener looked [request_ok] up. *)
Definition after_lookup : World :=
  snd (execute print parse anonymous first request_ok empty_world).

End Sample.


(** ** Vocabulary of the further properties *)

(** The object [execute] hands to [cacheGet]: the base cache key,
    augmented with the session id when there is one. *)
Definition lookup_object {DocumentNode : Type} (print : DocumentNode -> string)
    (requestContext : GraphQLRequestContext) (extra : jsval)
    (sid : option string) : jsobject :=
  match sid with
  | Some s => with_session (baseCacheKey_of print requestContext extra) s
  | None => baseCacheKey_of print requestContext extra
  end.

(** The text [cacheKey] hashes for that object. *)
Definition key_text {DocumentNode : Type} (print : DocumentNode -> string)
    (requestContext : GraphQLRequestContext) (extra : jsval)
    (sid : option string) (sessionMode : SessionMode) : string :=
  JSON.stringify_object
    (keyed (lookup_object print requestContext extra sid) sessionMode).

(** The calls a trace records beyond an earlier trace. *)
Definition is_read_of (c : KeyValueCache) (ev : Event) : Prop :=
  exists digest,
    ev = StoreGet c ("fqc:" +:+ digest) /\ String.length digest = 64.

(** ** More sample requests *)
Module Cases.

(** The session hook rejects every request. *)
Definition denied : @Options string :=
  {| options_cache := None;
     options_sessionId := Some (fun _ => Thrown (HookFailure "denied"));
     options_extraCacheKeyData := Some (fun _ => Returned (JStr "en")) |}.

(** The session hook answers [u1]; the extra data hook fails. *)
Definition no_extra : @Options string :=
  {| options_cache := None;
     options_sessionId := Some (fun _ => Returned (Some "u1"));
     options_extraCacheKeyData :=
       Some (fun _ => Thrown (HookFailure "no language")) |}.

(** A cache of the plugin's own, next to the server's cache 0. *)
Definition own_cache : @Options string :=
  {| options_cache := Some 7; options_sessionId := None;
     options_extraCacheKeyData := None |}.

Definition private_key : string :=
  store_key (listener_cache Sample.first)
            (with_session Sample.base "u1") Private.

Definition public_key : string :=
  store_key (listener_cache Sample.first) Sample.base AuthenticatedPublic.

(** The private entry of [u1] is not JSON; a public entry exists. *)
Definition corrupt_world : World :=
  {| stores := fun _ =>
       <[private_key := "{"]> {[ public_key := Sample.cached_text ]};
     envs := fun _ => fresh_env; next_env := 1; trace := [] |}.

(** The private entry of [u1] is the text [null]; a public entry
    exists. *)
Definition null_world : World :=
  {| stores := fun _ =>
       <[private_key := "null"]> {[ public_key := Sample.cached_text ]};
     envs := fun _ => fresh_env; next_env := 1; trace := [] |}.

(** [Sample.public_world] with entries under other keys as well. *)
Definition crowded_world : World :=
  {| stores := fun _ =>
       <["fqc:other" := "null"]>
         (<["unrelated" := "{"]> {[ public_key := Sample.cached_text ]});
     envs := fun _ => fresh_env; next_env := 1; trace := [] |}.

(** A response with data and an empty list of errors. *)
Definition request_empty_errors : @GraphQLRequestContext string :=
  Sample.context (Some [])
    {| data := JObj [("a", JNum 1)]; errors := JArr [] |}.

(** The listener [requestDidStart] makes under [own_cache]. *)
Definition own_listener : Listener :=
  {| listener_env := 0;
     listener_cache := {| wrapped := 7; prefix := "fqc:" |} |}.

End Cases.

(** ** Reading serialized text back (used to tell texts apart) *)

(** A value that JSON can carry: no [undefined] anywhere inside. *)
Fixpoint is_json (v : jsval) : bool :=
  match v with
  | JUndefined => false
  | JNull | JBool _ | JNum _ | JStr _ => true
  | JArr items => forallb is_json items
  | JObj props => forallb (fun kv => is_json (snd kv)) props
  end.

Definition hex_value (c : ascii) : option N :=
  let n := N_of_ascii c in
  if ((48 <=? n) && (n <=? 57))%N then Some (n - 48)%N
  else if ((97 <=? n) && (n <=? 102))%N then Some (n - 87)%N
  else None.

(** One character read off the front of an escaped text, with the text
    that follows it; [None] at a closing quote and on text that
    [JSON.escape] does not produce. *)
Definition unescape_char (t : string) : option (ascii * string) :=
  match t with
  | EmptyString => None
  | String c r =>
      if Ascii.eqb c JSON.backslash then
        match r with
        | EmptyString => None
        | String k r' =>
            if Ascii.eqb k JSON.dquote then Some (JSON.dquote, r')
            else if Ascii.eqb k JSON.backslash then Some (JSON.backslash, r')
            else if Ascii.eqb k "b" then Some ("008"%char, r')
            else if Ascii.eqb k "t" then Some ("009"%char, r')
            else if Ascii.eqb k "n" then Some ("010"%char, r')
            else if Ascii.eqb k "f" then Some ("012"%char, r')
            else if Ascii.eqb k "r" then Some ("013"%char, r')
            else if Ascii.eqb k "u" then
              match r' with
              | String z1 (String z2 (String x (String y r''))) =>
                  if Ascii.eqb z1 "0" && Ascii.eqb z2 "0" then
                    match hex_value x, hex_value y with
                    | Some a, Some b => Some (ascii_of_N (16 * a + b), r'')
                    | _, _ => None
                    end
                  else None
              | _ => None
              end
            else None
        end
      else if Ascii.eqb c JSON.dquote then None
      else Some (c, r)
  end.

(** The characters of a serialized number. *)
Definition is_number_char (c : ascii) : bool :=
  let n := N_of_ascii c in
  ((n =? 45) || (48 <=? n) && (n <=? 57))%N.

(** The longest front part of a text made of number characters, and
    the rest. *)
Fixpoint number_prefix (t : string) : string * string :=
  match t with
  | EmptyString => (EmptyString, EmptyString)
  | String c r =>
      if is_number_char c then
        (String c (fst (number_prefix r)), snd (number_prefix r))
      else (EmptyString, t)
  end.

(** A text that cannot continue a number: empty, or starting with
    another character. *)
Definition closes (r : string) : bool :=
  match r with
  | EmptyString => true
  | String c _ => negb (is_number_char c)
  end.

(** The kind of value a serialized text starts with, read off its
    first character. *)
Definition head_class (t : string) : nat :=
  match t with
  | EmptyString => 0
  | String c _ =>
      let n := N_of_ascii c in
      if (n =? 110)%N then 1
      else if (n =? 116)%N then 2
      else if (n =? 102)%N then 3
      else if is_number_char c then 4
      else if (n =? 34)%N then 5
      else if (n =? 91)%N then 6
      else if (n =? 123)%N then 7
      else 0
  end.

Definition value_class (v : jsval) : nat :=
  match v with
  | JUndefined => 0
  | JNull => 1
  | JBool true => 2
  | JBool false => 3
  | JNum _ => 4
  | JStr _ => 5
  | JArr _ => 6
  | JObj _ => 7
  end.

(** The texts [ms] of a sequence after its first, each behind a comma,
    then the closing bracket and what follows. *)
Fixpoint tail_text (close : string) (ms : list string) (r : string) : string :=
  match ms with
  | [] => close +:+ r
  | m :: ms' => "," +:+ m +:+ tail_text close ms' r
  end.

Definition seq_text (close : string) (ms : list string) (r : string) : string :=
  match ms with
  | [] => close +:+ r
  | m :: ms' => m +:+ tail_text close ms' r
  end.

(** The texts of the items of an array. *)
Abbreviation elems items :=
  (List.map (fun x => JSON.element (JSON.stringify x)) items).

(** The properties of an object carry no [undefined]. *)
Abbreviation json_props props :=
  (forallb (fun kv : string * jsval => is_json (snd kv)) props).

(** A value whose text determines it. *)
Definition text_determines (v : jsval) : Prop :=
  forall v' t t' r r',
    is_json v' = true ->
    JSON.stringify v = Some t -> JSON.stringify v' = Some t' ->
    closes r = true -> closes r' = true ->
    t +:+ r = t' +:+ r' -> v = v' /\ r = r'.

(** Extra data that is [undefined] or carries no [undefined] inside. *)
Definition extra_is_json (extra : jsval) : bool :=
  match extra with
  | JUndefined => true
  | _ => is_json extra
  end.

(** The variables of a request carry no [undefined]. *)
Definition variables_are_json {DocumentNode : Type}
    (requestContext : @GraphQLRequestContext DocumentNode) : bool :=
  match variables (request requestContext) with
  | Some vars => is_json (JObj vars)
  | None => true
  end.

(** A property that is present only when it has a value. *)
Definition opt_field (k : string) (o : option jsval) : jsobject :=
  match o with
  | Some v => [(k, v)]
  | None => []
  end.

(** A value, unless it is [undefined]. *)
Definition defined (v : jsval) : option jsval :=
  match v with
  | JUndefined => None
  | _ => Some v
  end.

(** The name of the first property. *)
Definition head_key (o : jsobject) : option string :=
  match o with
  | [] => None
  | (k, _) :: _ => Some k
  end.

(** The properties of a key that are serialized: those of [key_fields]
    whose value is not [undefined]. *)
Definition serialized_fields (doc : string) (opName : option string)
    (vars : option jsobject) (extra : jsval) (sid : option string)
    (sessionMode : SessionMode) : jsobject :=
  [ ("document", JStr doc); ("operationName", of_nullable opName) ]
  ++ opt_field "variables" (JObj <$> vars)
  ++ opt_field "extra" (defined extra)
  ++ opt_field "sessionId" (JStr <$> sid)
  ++ [("sessionMode", JNum (SessionMode_value sessionMode))].

(** * Properties *)

Lemma upd_same {A} (f : nat -> A) i a : upd f i a i = a.
Proof. unfold upd. by rewrite Nat.eqb_refl. Qed.

Lemma upd_other {A} (f : nat -> A) i j a : j <> i -> upd f i a j = f j.
Proof.
  intros Hne. unfold upd. destruct (Nat.eqb_spec j i); congruence.
Qed.

(** ** The library functions on known values *)

Example sha256_empty :
  SHA256.sha256_hex "" =
  "e3b0c44298fc1c149afbf4c8996fb92427ae41e4649b934ca495991b7852b855".
Proof. by vm_compute. Qed.

Example sha256_abc :
  SHA256.sha256_hex "abc" =
  "ba7816bf8f01cfea414140de5dae2223b00361a396177a9cb410ff61f20015ad".
Proof. by vm_compute. Qed.

Example sha256_two_blocks :
  SHA256.sha256_hex
    "abcdbcdecdefdefgefghfghighijhijkijkljklmklmnlmnomnopnopq" =
  "248d6a61d20638b8e5c026930c3e6039a33ce45964ff2167f6ecedd419db06c1".
Proof. by vm_compute. Qed.

Example round_constants_ends :
  hd 0%Z SHA256.round_constants = 0x428a2f98%Z /\
  last SHA256.round_constants = Some 0xc67178f2%Z /\
  SHA256.ha SHA256.initial_chain = 0x6a09e667%Z /\
  SHA256.hh SHA256.initial_chain = 0x5be0cd19%Z.
Proof. by vm_compute. Qed.

(** Undefined properties are left out, undefined elements become
    [null], control characters and quotes are escaped. *)
Example stringify_sample :
  JSON.stringify
    (JObj [("a", JNum 0); ("b", JUndefined);
           ("c", JArr [JUndefined; JNum (-12); JBool true]);
           ("d", JStr (String "010" (String JSON.dquote "x")))]) =
  Some (with_dquotes "{'a':0,'c':[null,-12,true],'d':'\n\'x'}").
Proof. by vm_compute. Qed.

Example spread_keeps_order :
  keyed [("document", JStr "q"); ("sessionMode", JNull); ("extra", JNull)]
        Private =
  [("document", JStr "q"); ("sessionMode", JNum 1); ("extra", JNull)].
Proof. reflexivity. Qed.

(** ** Facts about the serialization *)

Lemma stringify_object_eq (props : jsobject) :
  JSON.stringify (JObj props) = Some (JSON.stringify_object props).
Proof. reflexivity. Qed.


Lemma append_assoc (a b c : string) : (a +:+ b) +:+ c = a +:+ (b +:+ c).
Proof.
  induction a as [|x a IH]; [done|].
  change (String x ((a +:+ b) +:+ c) = String x (a +:+ (b +:+ c))).
  by rewrite IH.
Qed.

Lemma join_app (a : string) (A : list string) (b : string) (B : list string) :
  JSON.join ((a :: A) ++ b :: B) =
  JSON.join (a :: A) +:+ "," +:+ JSON.join (b :: B).
Proof.
  revert a. induction A as [|a' A IH]; intros a; [done|].
  change (a +:+ "," +:+ JSON.join ((a' :: A) ++ b :: B) =
          (a +:+ "," +:+ JSON.join (a' :: A)) +:+ "," +:+ JSON.join (b :: B)).
  rewrite IH, !append_assoc. reflexivity.
Qed.

Lemma members_app (o1 o2 : jsobject) :
  JSON.members (o1 ++ o2) = JSON.members o1 ++ JSON.members o2.
Proof.
  unfold JSON.members. induction o1 as [|[k v] o1 IH]; [done|].
  cbn [omap list_omap app]. rewrite IH.
  by destruct (JSON.member _ _).
Qed.

(** The serialization of an object whose first property is a string:
    the text of the leading properties, a comma, and the text of the
    properties that follow. *)
Lemma stringify_object_split (k : string) (d : string) (o1 o2 : jsobject)
    (m : string) (ms : list string) :
  JSON.members o2 = m :: ms ->
  JSON.stringify_object ((k, JStr d) :: o1 ++ o2) =
  "{" +:+ JSON.join (JSON.members ((k, JStr d) :: o1)) +:+ ","
      +:+ JSON.join (m :: ms) +:+ "}".
Proof.
  intros Hm. unfold JSON.stringify_object.
  change ((k, JStr d) :: o1 ++ o2) with (((k, JStr d) :: o1) ++ o2).
  rewrite members_app, Hm.
  change (JSON.members ((k, JStr d) :: o1))
    with ((JSON.quote k +:+ ":" +:+ JSON.quote d) :: JSON.members o1).
  rewrite join_app, !append_assoc. reflexivity.
Qed.

(** After the same leading properties, the text of a key structure
    that carries a session id differs from the text of one that goes
    straight to the session mode. *)
Lemma session_text_differs (k d : string) (o1 : jsobject) (s : string)
    (m m' : SessionMode) :
  JSON.stringify_object
    ((k, JStr d) :: o1 ++
       [("sessionId", JStr s); ("sessionMode", JNum (SessionMode_value m))]) <>
  JSON.stringify_object
    ((k, JStr d) :: o1 ++ [("sessionMode", JNum (SessionMode_value m'))]).
Proof.
  intros H.
  erewrite !stringify_object_split in H by reflexivity.
  do 3 apply (inj (String.append _)) in H.
  apply (f_equal (String.get 8)) in H. lazy in H. discriminate H.
Qed.

(** ** Facts about the digest *)

Lemma hex_digit_lower (x : Z) : lower_hex (SHA256.hex_digit x) = true.
Proof.
  unfold SHA256.hex_digit.
  destruct (x mod 16)%Z as [|q|q]; try reflexivity.
  do 5 (try destruct q as [q|q|]; try reflexivity).
Qed.

Lemma sha256_hex_shape (s : string) :
  String.length (SHA256.sha256_hex s) = 64 /\
  all_chars lower_hex (SHA256.sha256_hex s) = true.
Proof.
  unfold SHA256.sha256_hex, SHA256.digest_words.
  set (h := SHA256.blocks _ _ _).
  cbn [SHA256.hex fold_right SHA256.hex_word String.length all_chars].
  rewrite !hex_digit_lower. done.
Qed.

(** ** Facts about objects as maps *)

(** Objects without repeated names that are equal as maps and list
    their names in the same order are the same object. *)
Lemma as_map_ordered_inj (o1 o2 : jsobject) :
  NoDup o1.*1 -> o1.*1 = o2.*1 -> as_map o1 = as_map o2 -> o1 = o2.
Proof.
  revert o2. induction o1 as [|[k v] o1 IH]; intros [|[k' v'] o2] Hnd Hk Hm;
    try done.
  simplify_eq/=. apply NoDup_cons in Hnd as [Hk' Hnd].
  unfold as_map in *.
  assert (Hv : v = v').
  { apply (f_equal (fun m => m !! k')) in Hm.
    rewrite !lookup_insert_eq in Hm. congruence. }
  subst v'. f_equal. apply IH; [done..|].
  apply (f_equal (delete k')) in Hm.
  rewrite !delete_insert_id in Hm; [done|..];
    apply not_elem_of_list_to_map_1; congruence.
Qed.

Section PluginFacts.

Context {DocumentNode : Type}.
Variable print : DocumentNode -> string.
Variable JSON_parse : string -> Outcome jsval.

Implicit Types (this : Listener) (w : World) (base : jsobject)
  (mode : SessionMode) (requestContext : @GraphQLRequestContext DocumentNode)
  (options : @Options DocumentNode).

Lemma cacheGet_run this base mode w :
  cacheGet JSON_parse this base mode w =
  (entry_at JSON_parse this w base mode, logged w [read_at this base mode]).
Proof.
  unfold cacheGet, bind, prefixing_get, store_get, entry_at, read_at,
    store_key, parsed_entry. simpl.
  destruct (stores w _ !! _); reflexivity.
Qed.

Lemma entry_at_stores this w w' base mode :
  stores w' = stores w ->
  entry_at JSON_parse this w' base mode = entry_at JSON_parse this w base mode.
Proof. intros E. unfold entry_at. by rewrite E. Qed.

(** [execute] is its hook calls followed by its lookup phase. *)
Lemma execute_hooks_then options this requestContext :
  execute print JSON_parse options this requestContext =
  hooks_then options requestContext (listener_env this)
             (lookup_phase print JSON_parse this requestContext).
Proof. reflexivity. Qed.

(** The hook phase of [execute], for any continuation [K]: once both
    hooks have answered, the listener's environment holds their results
    and the flag, nothing else has changed, and [K] runs from there. *)
Lemma hooks_run {B} (K : Env -> M B) options requestContext l w sid extra :
  resolve (options_sessionId options) requestContext
          (sessionId (envs w l)) = Returned sid ->
  resolve (options_extraCacheKeyData options) requestContext
          (extraCacheKeyData (envs w l)) = Returned extra ->
  let env1 := {| invokedHooks := true; sessionId := sid;
                 extraCacheKeyData := extra |} in
  exists w1,
    (stores w1 = stores w /\ trace w1 = trace w /\ next_env w1 = next_env w /\
     envs w1 l = env1 /\ (forall l', l' <> l -> envs w1 l' = envs w l')) /\
    hooks_then options requestContext l K w = K env1 w1.
Proof.
  intros Hs He env1. unfold hooks_then, resolve in *.
  destruct (options_sessionId options) as [hs|];
    destruct (options_extraCacheKeyData options) as [he|];
    unfold bind, await, modify_env, ret, get_env; cbn;
    rewrite ?Hs, ?He; cbn; rewrite ?upd_same; cbn;
    try (injection Hs as Hs); try (injection He as He); subst.
  all: eexists; split; cycle 1; [reflexivity|].
  all: cbn; rewrite ?upd_same; repeat split.
  all: intros l' Hl'; by rewrite ?upd_other.
Qed.

(** [execute] once both hooks have answered. *)
Lemma execute_run options this requestContext w sid extra :
  let l := listener_env this in
  resolve (options_sessionId options) requestContext
          (sessionId (envs w l)) = Returned sid ->
  resolve (options_extraCacheKeyData options) requestContext
          (extraCacheKeyData (envs w l)) = Returned extra ->
  let base := baseCacheKey_of print requestContext extra in
  exists w1,
    (stores w1 = stores w /\ trace w1 = trace w /\ next_env w1 = next_env w /\
     envs w1 l = {| invokedHooks := true; sessionId := sid;
                    extraCacheKeyData := extra |} /\
     (forall l', l' <> l -> envs w1 l' = envs w l')) /\
    execute print JSON_parse options this requestContext w =
      match sid with
      | None => cacheGet JSON_parse this base NoSession w1
      | Some s =>
          (privateResponse <-
             cacheGet JSON_parse this (with_session base s) Private ;;
           if negb (is_null privateResponse) then ret privateResponse
           else cacheGet JSON_parse this base AuthenticatedPublic) w1
      end.
Proof.
  intros l Hs He base. subst l.
  destruct (hooks_run (lookup_phase print JSON_parse this requestContext)
              options requestContext _ w sid extra Hs He)
    as (w1 & Hw1 & Hrun).
  exists w1. split; [exact Hw1|].
  rewrite execute_hooks_then, Hrun.
  destruct sid; reflexivity.
Qed.

(** The hook phase when a hook fails: the failure is the outcome of
    the whole call, and no store was reached. *)
Lemma hooks_fail {B} (K : Env -> M B) options requestContext l w e :
  resolve (options_sessionId options) requestContext
          (sessionId (envs w l)) = Thrown e \/
  (exists sid,
     resolve (options_sessionId options) requestContext
             (sessionId (envs w l)) = Returned sid /\
     resolve (options_extraCacheKeyData options) requestContext
             (extraCacheKeyData (envs w l)) = Thrown e) ->
  exists w1,
    (stores w1 = stores w /\ trace w1 = trace w /\ next_env w1 = next_env w /\
     envs w1 l =
       match resolve (options_sessionId options) requestContext
                     (sessionId (envs w l)) with
       | Returned sid => set_sessionId sid (envs w l)
       | Thrown _ => envs w l
       end /\
     (forall l', l' <> l -> envs w1 l' = envs w l')) /\
    hooks_then options requestContext l K w = (Thrown e, w1).
Proof.
  unfold hooks_then, resolve. intros [Hs | (sid & Hs & He)].
  - destruct (options_sessionId options) as [hs|]; [|discriminate].
    unfold bind, await. rewrite Hs. exists w. by repeat split.
  - destruct (options_sessionId options) as [hs|];
      (destruct (options_extraCacheKeyData options) as [he|]; [|discriminate]);
      unfold bind, await, modify_env, ret; cbn; rewrite ?Hs, He; cbn.
    all: eexists; split; [|reflexivity]; cbn; rewrite ?upd_same.
    all: repeat split; try done.
    + intros l' Hl'. by rewrite upd_other.
    + by destruct (envs w l).
Qed.

Lemma logged_logged w evs evs' :
  logged (logged w evs) evs' = logged w (evs ++ evs').
Proof. unfold logged. cbn. by rewrite <- app_assoc. Qed.

(** The lookup phase, from any world. *)
Lemma lookup_run this base sid w :
  match sid with
  | None => cacheGet JSON_parse this base NoSession w
  | Some s =>
      (privateResponse <-
         cacheGet JSON_parse this (with_session base s) Private ;;
       if negb (is_null privateResponse) then ret privateResponse
       else cacheGet JSON_parse this base AuthenticatedPublic) w
  end =
  match sid with
  | None =>
      (entry_at JSON_parse this w base NoSession,
       logged w [read_at this base NoSession])
  | Some s =>
      match entry_at JSON_parse this w (with_session base s) Private with
      | Returned JNull =>
          (entry_at JSON_parse this w base AuthenticatedPublic,
           logged w [read_at this (with_session base s) Private;
                     read_at this base AuthenticatedPublic])
      | hit => (hit, logged w [read_at this (with_session base s) Private])
      end
  end.
Proof.
  destruct sid as [s|]; [|apply cacheGet_run].
  unfold bind. rewrite cacheGet_run.
  destruct (entry_at JSON_parse this w (with_session base s) Private)
    as [[]|]; cbn [negb is_null]; try reflexivity.
  rewrite cacheGet_run, logged_logged. reflexivity.
Qed.

(** When a hook fails, so does [execute], before any store is read. *)
Lemma execute_fail options this requestContext w e :
  let l := listener_env this in
  resolve (options_sessionId options) requestContext
          (sessionId (envs w l)) = Thrown e \/
  (exists sid,
     resolve (options_sessionId options) requestContext
             (sessionId (envs w l)) = Returned sid /\
     resolve (options_extraCacheKeyData options) requestContext
             (extraCacheKeyData (envs w l)) = Thrown e) ->
  exists w1,
    (stores w1 = stores w /\ trace w1 = trace w /\ next_env w1 = next_env w /\
     envs w1 l =
       match resolve (options_sessionId options) requestContext
                     (sessionId (envs w l)) with
       | Returned sid => set_sessionId sid (envs w l)
       | Thrown _ => envs w l
       end /\
     (forall l', l' <> l -> envs w1 l' = envs w l')) /\
    execute print JSON_parse options this requestContext w = (Thrown e, w1).
Proof.
  intros l H. subst l.
  destruct (hooks_fail (lookup_phase print JSON_parse this requestContext)
              options requestContext _ w e H)
    as (w1 & Hw1 & Hrun).
  exists w1. split; [exact Hw1|]. by rewrite execute_hooks_then.
Qed.

(** What every call of [execute] leaves behind: the stores and the
    other listeners' environments as they were, and a trace extended by
    reads only, each at a key that respects the partitions. *)
Lemma execute_frame options this requestContext w :
  let out := execute print JSON_parse options this requestContext w in
  stores (snd out) = stores w /\
  next_env (snd out) = next_env w /\
  (forall l', l' <> listener_env this -> envs (snd out) l' = envs w l') /\
  exists lookups,
    trace (snd out) = trace w ++ reads_at this lookups /\
    Forall (fun bm => partitioned (fst bm) (snd bm)) lookups.
Proof.
  intros out. set (l := listener_env this).
  destruct (resolve (options_sessionId options) requestContext
              (sessionId (envs w l))) as [sid|e] eqn:Hs;
    [destruct (resolve (options_extraCacheKeyData options) requestContext
              (extraCacheKeyData (envs w l))) as [extra|e] eqn:He|].
  - destruct (execute_run options this requestContext w sid extra Hs He)
      as (w1 & (Hst & Htr & Hne & _ & Hothers) & Hrun).
    rewrite lookup_run in Hrun. fold out in Hrun.
    set (base := baseCacheKey_of print requestContext extra) in *.
    destruct sid as [s|];
      [destruct (entry_at JSON_parse this w1 (with_session base s) Private)
         as [[]|]|];
      rewrite Hrun; cbn [fst snd logged stores envs next_env trace];
      rewrite Htr; (repeat split; [done..|]).
    all: try (exists [(with_session base s, Private)]; split; [done|];
              repeat constructor; by exists s).
    + exists [(with_session base s, Private); (base, AuthenticatedPublic)].
      split; [done|]. repeat constructor. by exists s.
    + exists [(base, NoSession)]. split; [done|]. by repeat constructor.
  - destruct (execute_fail options this requestContext w e)
      as (w1 & (Hst & Htr & Hne & _ & Hothers) & Hrun);
      [right; eauto|].
    fold out in Hrun. rewrite Hrun. cbn [snd].
    repeat split; [done..|]. exists []. rewrite Htr, app_nil_r. by split.
  - destruct (execute_fail options this requestContext w e)
      as (w1 & (Hst & Htr & Hne & _ & Hothers) & Hrun);
      [by left|].
    fold out in Hrun. rewrite Hrun. cbn [snd].
    repeat split; [done..|]. exists []. rewrite Htr, app_nil_r. by split.
Qed.

(** C1. [execute] is the session state machine: with a null resolved
    session id it reads once, at the NoSession key of the base cache
    key, and answers the parsed entry or a miss; with a session id it
    first reads the Private key of the base cache key augmented with
    the session id, answers a hit at once without a second read, and on
    a miss reads the AuthenticatedPublic key of the unaugmented base
    cache key and answers that result. No lookup changes a store. *)
Theorem execute_session_state_machine options this requestContext w sid extra :
  let l := listener_env this in
  resolve (options_sessionId options) requestContext
          (sessionId (envs w l)) = Returned sid ->
  resolve (options_extraCacheKeyData options) requestContext
          (extraCacheKeyData (envs w l)) = Returned extra ->
  let base := baseCacheKey_of print requestContext extra in
  let out := execute print JSON_parse options this requestContext w in
  stores (snd out) = stores w /\
  match sid with
  | None =>
      fst out = entry_at JSON_parse this w base NoSession /\
      trace (snd out) = trace w ++ [read_at this base NoSession]
  | Some s =>
      match entry_at JSON_parse this w (with_session base s) Private with
      | Returned JNull =>
          fst out = entry_at JSON_parse this w base AuthenticatedPublic /\
          trace (snd out) =
            trace w ++ [read_at this (with_session base s) Private;
                        read_at this base AuthenticatedPublic]
      | hit =>
          fst out = hit /\
          trace (snd out) =
            trace w ++ [read_at this (with_session base s) Private]
      end
  end.
Proof.
  intros l Hs He base out.
  destruct (execute_run options this requestContext w sid extra Hs He)
    as (w1 & (Hst & Htr & _) & Hrun).
  rewrite lookup_run in Hrun. fold base in Hrun. fold out in Hrun.
  destruct sid as [s|];
    rewrite ?(entry_at_stores this w w1 _ Private Hst),
      ?(entry_at_stores this w w1 _ NoSession Hst),
      ?(entry_at_stores this w w1 _ AuthenticatedPublic Hst) in Hrun;
    [destruct (entry_at JSON_parse this w (with_session base s) Private)
       as [[]|]|];
    rewrite Hrun; cbn [fst snd logged stores trace]; by rewrite Htr.
Qed.

(** [willSendResponse] never changes the world, whatever it answers. *)
Lemma willSendResponse_world this requestContext w :
  snd (willSendResponse this requestContext w) = w.
Proof.
  unfold willSendResponse, bind, get_env, throw, ret.
  destruct (truthy _ || negb _); [done|].
  by destruct (negb _).
Qed.

Lemma not_eligible_returns this requestContext w :
  eligible (response requestContext) = false ->
  willSendResponse this requestContext w = (Returned tt, w).
Proof.
  unfold eligible, willSendResponse. intros H.
  destruct (truthy (errors _)), (truthy (data _)); done.
Qed.

(** C4. A response that has a non-empty list of errors, or that lacks
    a data payload, is not cached: [willSendResponse] returns normally
    and leaves the world as it found it, so it performs no store
    write. *)
Theorem willSendResponse_never_caches_errors this requestContext w :
  (exists e es, errors (response requestContext) = JArr (e :: es)) \/
  data (response requestContext) = JUndefined \/
  data (response requestContext) = JNull ->
  willSendResponse this requestContext w = (Returned tt, w) /\
  writes (trace (snd (willSendResponse this requestContext w))) =
    writes (trace w).
Proof.
  intros H.
  assert (E : eligible (response requestContext) = false).
  { unfold eligible. destruct H as [(e & es & ->) | [-> | ->]]; [done|..];
      by rewrite andb_false_r. }
  rewrite not_eligible_returns by exact E. done.
Qed.


(** A cacheable response after the hooks ran: [willSendResponse]
    returns, and the world is as it was. *)
Lemma eligible_returns this requestContext w :
  eligible (response requestContext) = true ->
  invokedHooks (envs w (listener_env this)) = true ->
  willSendResponse this requestContext w = (Returned tt, w).
Proof.
  unfold eligible, willSendResponse, bind, get_env. intros H Hflag.
  destruct (truthy (errors _)), (truthy (data _)); try done.
  cbn. by rewrite Hflag.
Qed.

Lemma reads_are_not_writes this lookups :
  List.filter is_write (reads_at this lookups) = [].
Proof. induction lookups as [|bm r IH]; [done|]. exact IH. Qed.

(** C10. Neither phase writes to a store: after [execute] and after
    [willSendResponse] every store holds what it held before, and the
    trace has gained no write. *)
Theorem plugin_never_writes options this requestContext w :
  let looked := execute print JSON_parse options this requestContext w in
  let sent := willSendResponse this requestContext w in
  (stores (snd looked) = stores w /\
   writes (trace (snd looked)) = writes (trace w)) /\
  (stores (snd sent) = stores w /\
   writes (trace (snd sent)) = writes (trace w)).
Proof.
  intros looked sent. split.
  - destruct (execute_frame options this requestContext w)
      as (Hst & _ & _ & lookups & Htr & _).
    fold looked in Hst, Htr. split; [exact Hst|].
    rewrite Htr. unfold writes. rewrite List.filter_app.
    rewrite reads_are_not_writes. apply app_nil_r.
  - unfold sent. by rewrite willSendResponse_world.
Qed.

(** C2. Every key [execute] reads respects the partitions: the
    structure serialized under mode Private carries a session id (a
    string, so never null), the structures serialized under
    AuthenticatedPublic and NoSession carry none. Hence, for the same
    base cache key and any session id, the text hashed for the Private
    key differs from the texts hashed for the AuthenticatedPublic and
    NoSession keys. *)
Theorem session_partitions_are_disjoint options this requestContext w :
  let out := execute print JSON_parse options this requestContext w in
  (exists lookups,
     trace (snd out) = trace w ++ reads_at this lookups /\
     Forall (fun bm => partitioned (fst bm) (snd bm)) lookups) /\
  forall extra s,
    let base := baseCacheKey_of print requestContext extra in
    JSON.stringify_object (keyed (with_session base s) Private) <>
      JSON.stringify_object (keyed base AuthenticatedPublic) /\
    JSON.stringify_object (keyed (with_session base s) Private) <>
      JSON.stringify_object (keyed base NoSession).
Proof.
  intros out. split.
  - by destruct (execute_frame options this requestContext w)
      as (_ & _ & _ & H).
  - intros extra s base. split.
    + apply (session_text_differs "document" _
               [("operationName", _); ("variables", _); ("extra", _)]
               s Private AuthenticatedPublic).
    + apply (session_text_differs "document" _
               [("operationName", _); ("variables", _); ("extra", _)]
               s Private NoSession).
Qed.

Lemma requestDidStart_run options outer w0 this w1 :
  requestDidStart options outer w0 = (Returned this, w1) ->
  listener_env this = next_env w0 /\
  prefix (listener_cache this) = "fqc:" /\
  wrapped (listener_cache this) =
    default (cache outer) (options_cache options) /\
  stores w1 = stores w0 /\ trace w1 = trace w0 /\
  next_env w1 = S (next_env w0) /\
  envs w1 (next_env w0) = fresh_env /\
  (forall l', l' <> next_env w0 -> envs w1 l' = envs w0 l').
Proof.
  unfold requestDidStart. intros [= <- <-]. cbn.
  rewrite upd_same. repeat split.
  intros l' Hl'. by rewrite upd_other.
Qed.

Lemma keyed_key_fields requestContext extra sid mode :
  keyed (match sid with
         | Some s => with_session (baseCacheKey_of print requestContext extra) s
         | None => baseCacheKey_of print requestContext extra
         end) mode =
  key_fields (print (document requestContext)) (operationName requestContext)
             (variables (request requestContext)) extra sid mode.
Proof. by destruct sid. Qed.

(** C6. The key that reaches the store for a lookup is ["fqc:"]
    followed by the SHA-256 digest, 64 lowercase hexadecimal digits, of
    the JSON text of the object holding the document, the operation
    name, the variables, the extra data, the session id when there is
    one, and the session mode; it is the same for every listener and
    every world, so repeated calls on equal inputs give the same key. *)
Theorem store_key_format options outer w0 this w1 requestContext extra sid
    mode :
  requestDidStart options outer w0 = (Returned this, w1) ->
  let base := baseCacheKey_of print requestContext extra in
  let arg := match sid with Some s => with_session base s | None => base end in
  let digest :=
    SHA256.sha256_hex
      (JSON.stringify_object
         (key_fields (print (document requestContext))
                     (operationName requestContext)
                     (variables (request requestContext)) extra sid mode)) in
  (forall w,
     trace (snd (cacheGet JSON_parse this arg mode w)) =
     trace w ++
       [StoreGet (wrapped (listener_cache this)) ("fqc:" +:+ digest)]) /\
  String.length digest = 64 /\
  all_chars lower_hex digest = true /\
  (forall options' outer' w0' this' w1',
     requestDidStart options' outer' w0' = (Returned this', w1') ->
     store_key (listener_cache this') arg mode =
     store_key (listener_cache this) arg mode).
Proof.
  intros Hstart base arg digest.
  apply requestDidStart_run in Hstart as (_ & Hprefix & _).
  assert (Hkey : cacheKey arg mode = digest).
  { unfold cacheKey, sha, digest, arg, base. by rewrite keyed_key_fields. }
  split; [|split; [|split]].
  - intros w. rewrite cacheGet_run. cbn [snd logged trace].
    unfold read_at, store_key. by rewrite Hprefix, Hkey.
  - apply sha256_hex_shape.
  - apply sha256_hex_shape.
  - intros options' outer' w0' this' w1' Hstart'.
    apply requestDidStart_run in Hstart' as (_ & Hprefix' & _).
    unfold store_key. by rewrite Hprefix, Hprefix'.
Qed.

(** C7 (amended). Two base cache keys that are equal as maps and whose
    variables list their names in the same order serialize to the same
    text and hash to the same key. *)
Theorem same_order_same_key rc1 extra1 rc2 extra2 mode :
  same_base_key print rc1 extra1 rc2 extra2 ->
  variable_names rc1 = variable_names rc2 ->
  (forall vars, variables (request rc1) = Some vars -> NoDup vars.*1) ->
  JSON.stringify_object (keyed (baseCacheKey_of print rc1 extra1) mode) =
    JSON.stringify_object (keyed (baseCacheKey_of print rc2 extra2) mode) /\
  cacheKey (baseCacheKey_of print rc1 extra1) mode =
    cacheKey (baseCacheKey_of print rc2 extra2) mode.
Proof.
  intros (Hdoc & Hop & Hvars & Hextra) Hnames Hnodup.
  assert (E : baseCacheKey_of print rc1 extra1 =
              baseCacheKey_of print rc2 extra2).
  { unfold baseCacheKey_of. rewrite Hdoc, Hop, Hextra.
    unfold variable_names in Hnames.
    destruct (variables (request rc1)) as [v1|],
             (variables (request rc2)) as [v2|]; try done.
    simplify_eq/=. repeat f_equal.
    apply as_map_ordered_inj; eauto. }
  unfold cacheKey. by rewrite E.
Qed.

(** [execute] reads the world only through the stores and through
    the environment of its own listener. *)
Lemma execute_agree options this requestContext w w2 :
  let l := listener_env this in
  stores w2 = stores w -> envs w2 l = envs w l ->
  let out := execute print JSON_parse options this requestContext w in
  let out2 := execute print JSON_parse options this requestContext w2 in
  fst out2 = fst out /\
  envs (snd out2) l = envs (snd out) l /\
  exists evs,
    trace (snd out) = trace w ++ evs /\ trace (snd out2) = trace w2 ++ evs.
Proof.
  intros l. subst l. intros Hst Henv out out2.
  destruct (resolve (options_sessionId options) requestContext
              (sessionId (envs w (listener_env this)))) as [sid|e] eqn:Hs;
    [destruct (resolve (options_extraCacheKeyData options) requestContext
              (extraCacheKeyData (envs w (listener_env this)))) as [extra|e] eqn:He|].
  - destruct (execute_run options this requestContext w sid extra Hs He)
      as (w1 & (Hst1 & Htr1 & _ & Henv1 & _) & Hrun).
    rewrite <- Henv in Hs, He.
    destruct (execute_run options this requestContext w2 sid extra Hs He)
      as (w1' & (Hst1' & Htr1' & _ & Henv1' & _) & Hrun').
    rewrite lookup_run in Hrun, Hrun'. fold out in Hrun. fold out2 in Hrun'.
    set (base := baseCacheKey_of print requestContext extra) in *.
    assert (E : forall b m, entry_at JSON_parse this w1' b m =
                            entry_at JSON_parse this w1 b m).
    { intros b m. apply entry_at_stores. congruence. }
    destruct sid as [s|];
      rewrite ?(E _ Private), ?(E _ NoSession), ?(E _ AuthenticatedPublic)
        in Hrun';
      [destruct (entry_at JSON_parse this w1 (with_session base s) Private)
         as [[]|]|];
      rewrite Hrun, Hrun'; cbn [fst snd logged envs trace];
      rewrite Henv1, Henv1'; (split; [done|]); (split; [done|]);
      eexists; rewrite Htr1, Htr1'; split; reflexivity.
  - assert (Hfail : exists sid0,
      resolve (options_sessionId options) requestContext
              (sessionId (envs w (listener_env this))) = Returned sid0 /\
      resolve (options_extraCacheKeyData options) requestContext
              (extraCacheKeyData (envs w (listener_env this))) = Thrown e) by eauto.
    destruct (execute_fail options this requestContext w e (or_intror Hfail))
      as (w1 & (_ & Htr1 & _ & Henv1 & _) & Hrun).
    rewrite <- Henv in Hfail.
    destruct (execute_fail options this requestContext w2 e (or_intror Hfail))
      as (w1' & (_ & Htr1' & _ & Henv1' & _) & Hrun').
    rewrite Henv in Henv1'.
    fold out in Hrun. fold out2 in Hrun'. rewrite Hrun, Hrun'. cbn [fst snd].
    repeat split; [congruence|]. exists []. by rewrite !app_nil_r.
  - destruct (execute_fail options this requestContext w e (or_introl Hs))
      as (w1 & (_ & Htr1 & _ & Henv1 & _) & Hrun).
    rewrite <- Henv in Hs.
    destruct (execute_fail options this requestContext w2 e (or_introl Hs))
      as (w1' & (_ & Htr1' & _ & Henv1' & _) & Hrun').
    rewrite Henv in Henv1'.
    fold out in Hrun. fold out2 in Hrun'. rewrite Hrun, Hrun'. cbn [fst snd].
    repeat split; [congruence|]. exists []. by rewrite !app_nil_r.
Qed.

(** [willSendResponse] reads the world only through the environment of
    its own listener. *)
Lemma willSendResponse_agree this requestContext w w2 :
  envs w2 (listener_env this) = envs w (listener_env this) ->
  fst (willSendResponse this requestContext w2) =
  fst (willSendResponse this requestContext w).
Proof.
  intros Henv. unfold willSendResponse, bind, get_env.
  destruct (truthy (errors _) || negb (truthy (data _))); [done|].
  cbn. rewrite Henv. by destruct (negb _).
Qed.

(** C8 (amended). An anonymous request (neither hook configured, so
    the listener's environment is still as [requestDidStart] made it)
    whose document prints as [{ a }], with a null operation name and an
    empty variables object, is looked up with one read, at the prefix
    [fqc:] followed by the SHA-256 digest of exactly [anonymous_text],
    the text with the members document, operationName, variables (an
    empty object), extra and sessionMode 0. *)
Theorem anonymous_read_key options this requestContext w :
  options_sessionId options = None ->
  options_extraCacheKeyData options = None ->
  prefix (listener_cache this) = "fqc:" ->
  envs w (listener_env this) = fresh_env ->
  print (document requestContext) = "{ a }" ->
  operationName requestContext = None ->
  variables (request requestContext) = Some [] ->
  trace (snd (execute print JSON_parse options this requestContext w)) =
    trace w ++ [StoreGet (wrapped (listener_cache this))
                         ("fqc:" +:+ SHA256.sha256_hex anonymous_text)] /\
  SHA256.sha256_hex anonymous_text =
    "254bbe39b42b48cc795332f0c5313d4f85b1040c2b37ad0b922aaf40d2bae985".
Proof.
  intros Hs He Hprefix Henv Hdoc Hop Hvars. split; [|by vm_compute].
  destruct (execute_run options this requestContext w None JNull)
    as (w1 & (_ & Htr & _) & Hrun).
  { by rewrite Hs, Henv. }
  { by rewrite He, Henv. }
  cbv beta iota in Hrun. rewrite cacheGet_run in Hrun.
  rewrite Hrun. cbn [snd logged trace].
  rewrite Htr. unfold read_at, store_key, cacheKey, sha, baseCacheKey_of.
  rewrite Hprefix, Hdoc, Hop, Hvars.
  do 4 f_equal.
Qed.

(** C9. Requests share no mutable session or hook state. Every
    [requestDidStart] makes an environment of its own, with
    [invokedHooks = false], [sessionId = null] and
    [extraCacheKeyData = null], distinct from the environment of the
    next listener and leaving all existing environments alone. What one
    listener does ([execute], [willSendResponse]) leaves the environment
    of any other listener unchanged, and changes neither the answer, nor
    the reads, nor the recorded hook results of the other listener's
    [execute], nor the answer of its [willSendResponse]. *)
Theorem requests_share_no_state options outer w0 :
  let started := requestDidStart options outer w0 in
  (exists this,
     fst started = Returned this /\
     envs (snd started) (listener_env this) =
       {| invokedHooks := false; sessionId := None;
          extraCacheKeyData := JNull |} /\
     (forall l', l' <> listener_env this ->
                 envs (snd started) l' = envs w0 l') /\
     forall options' outer',
       exists next,
         fst (requestDidStart options' outer' (snd started)) = Returned next /\
         listener_env next <> listener_env this) /\
  forall this other rc rc' options' w,
    listener_env this <> listener_env other ->
    let looked := snd (execute print JSON_parse options this rc w) in
    let sent := snd (willSendResponse this rc w) in
    let l := listener_env other in
    (envs looked l = envs w l /\ envs sent l = envs w l) /\
    (fst (execute print JSON_parse options' other rc' looked) =
       fst (execute print JSON_parse options' other rc' w) /\
     envs (snd (execute print JSON_parse options' other rc' looked)) l =
       envs (snd (execute print JSON_parse options' other rc' w)) l /\
     exists evs,
       trace (snd (execute print JSON_parse options' other rc' w)) =
         trace w ++ evs /\
       trace (snd (execute print JSON_parse options' other rc' looked)) =
         trace looked ++ evs) /\
    fst (willSendResponse other rc' looked) =
      fst (willSendResponse other rc' w).
Proof.
  intros started. split.
  - eexists. split; [reflexivity|]. cbn. rewrite upd_same.
    repeat split.
    + intros l' Hl'. by rewrite upd_other.
    + intros options' outer'. eexists. split; [reflexivity|]. cbn. lia.
  - intros this other rc rc' options' w Hne looked sent l.
    destruct (execute_frame options this rc w) as (Hst & _ & Hothers & _).
    assert (Hl : envs looked l = envs w l)
      by (apply Hothers; unfold l; congruence).
    split; [|split].
    + split; [exact Hl|]. unfold sent. by rewrite willSendResponse_world.
    + by apply execute_agree.
    + by apply willSendResponse_agree.
Qed.

End PluginFacts.

(** * The properties on the sample requests *)

(** Scenario: a logged-in request, no private entry, a public entry.
    [execute] reads the private key, then the public key, and answers
    the public entry. *)
Lemma execute_session_state_machine_witness :
  fst (execute Sample.print Sample.parse Sample.logged_in Sample.first
               Sample.request_ok Sample.public_world) =
    Returned Sample.cached_response /\
  trace (snd (execute Sample.print Sample.parse Sample.logged_in Sample.first
                      Sample.request_ok Sample.public_world)) =
    [read_at Sample.first (with_session Sample.base "u1") Private;
     read_at Sample.first Sample.base AuthenticatedPublic].
Proof.
  pose proof (execute_session_state_machine Sample.print Sample.parse
    Sample.logged_in Sample.first Sample.request_ok Sample.public_world
    (Some "u1") JNull eq_refl eq_refl) as [_ H].
  assert (Hmiss :
    entry_at Sample.parse Sample.first Sample.public_world
      (with_session (baseCacheKey_of Sample.print Sample.request_ok JNull) "u1")
      Private = Returned JNull) by (vm_compute; reflexivity).
  assert (Hhit :
    entry_at Sample.parse Sample.first Sample.public_world
      (baseCacheKey_of Sample.print Sample.request_ok JNull)
      AuthenticatedPublic = Returned Sample.cached_response)
    by (vm_compute; reflexivity).
  rewrite Hmiss, Hhit in H. exact H.
Defined.

(** C3. On a cacheable response, after [execute] ran its hooks,
    [willSendResponse] returns without a store call: the world is as
    [execute] left it, and its trace holds no write. *)
Theorem willSendResponse_eligible_response_not_written :
  invokedHooks (envs Sample.after_lookup (listener_env Sample.first)) = true /\
  eligible (response Sample.request_ok) = true /\
  willSendResponse Sample.first Sample.request_ok Sample.after_lookup =
    (Returned tt, Sample.after_lookup) /\
  writes (trace Sample.after_lookup) = [] /\
  stores Sample.after_lookup = stores Sample.empty_world.
Proof.
  assert (Hflag : invokedHooks (envs Sample.after_lookup
                                     (listener_env Sample.first)) = true)
    by reflexivity.
  split; [exact Hflag|]. split; [reflexivity|].
  split; [by apply eligible_returns|].
  split; reflexivity.
Qed.

Lemma willSendResponse_never_caches_errors_witness :
  willSendResponse Sample.first Sample.request_failed Sample.after_lookup =
    (Returned tt, Sample.after_lookup).
Proof.
  apply (willSendResponse_never_caches_errors Sample.first
           Sample.request_failed Sample.after_lookup).
  left. eexists _, _. reflexivity.
Defined.



Lemma store_key_format_witness :
  requestDidStart Sample.anonymous Sample.request_ok Sample.empty_world =
    (Returned Sample.first,
     snd (requestDidStart Sample.anonymous Sample.request_ok
                          Sample.empty_world)) /\
  store_key (listener_cache Sample.second)
            (with_session Sample.base "u1") Private =
  store_key (listener_cache Sample.first)
            (with_session Sample.base "u1") Private.
Proof.
  split; [reflexivity|].
  pose proof (store_key_format Sample.print Sample.parse
    Sample.anonymous Sample.request_ok Sample.empty_world Sample.first _
    Sample.request_ok JNull (Some "u1") Private eq_refl)
    as (_ & _ & _ & H).
  exact (H Sample.logged_in Sample.request_failed
           (snd (requestDidStart Sample.anonymous Sample.request_ok
                                 Sample.empty_world))
           Sample.second _ eq_refl).
Defined.

(** C7 as stated fails: two requests whose variables are
    equal as maps, written in different orders, serialize to different
    texts and get different keys. *)
Lemma variable_order_changes_key :
  same_base_key Sample.print Sample.request_ab JNull Sample.request_ba JNull /\
  JSON.stringify_object
    (keyed (baseCacheKey_of Sample.print Sample.request_ab JNull) NoSession) <>
  JSON.stringify_object
    (keyed (baseCacheKey_of Sample.print Sample.request_ba JNull) NoSession) /\
  cacheKey (baseCacheKey_of Sample.print Sample.request_ab JNull) NoSession <>
  cacheKey (baseCacheKey_of Sample.print Sample.request_ba JNull) NoSession.
Proof.
  split; [|split].
  - repeat split; vm_compute; reflexivity.
  - vm_compute. discriminate.
  - vm_compute. discriminate.
Qed.

Lemma same_order_same_key_witness :
  same_base_key Sample.print Sample.request_ab JNull
                Sample.request_ab_failed JNull /\
  cacheKey (baseCacheKey_of Sample.print Sample.request_ab JNull) Private =
  cacheKey (baseCacheKey_of Sample.print Sample.request_ab_failed JNull) Private.
Proof.
  assert (H : same_base_key Sample.print Sample.request_ab JNull
                            Sample.request_ab_failed JNull)
    by (repeat split).
  split; [exact H|].
  refine (proj2 (same_order_same_key Sample.print Sample.request_ab JNull
                   Sample.request_ab_failed JNull Private H eq_refl _)).
  intros vars [= <-]. refine (bool_decide_unpack (NoDup _) _).
  vm_compute. exact I.
Defined.

(** C8 as stated fails for a request without a [variables]
    property: the serialized key structure has no variables member, so
    the read goes to another key. *)
Lemma anonymous_bare_request_key :
  trace (snd (execute Sample.print Sample.parse Sample.anonymous Sample.first
                      Sample.request_bare Sample.empty_world)) =
    [StoreGet 0 ("fqc:" +:+ SHA256.sha256_hex bare_text)] /\
  trace (snd (execute Sample.print Sample.parse Sample.anonymous Sample.first
                      Sample.request_bare Sample.empty_world)) <>
    [StoreGet 0 ("fqc:" +:+ SHA256.sha256_hex anonymous_text)].
Proof.
  assert (E : trace (snd (execute Sample.print Sample.parse Sample.anonymous
                            Sample.first Sample.request_bare
                            Sample.empty_world)) =
              [StoreGet 0 ("fqc:" +:+ SHA256.sha256_hex bare_text)])
    by (vm_compute; reflexivity).
  split; [exact E|]. rewrite E. vm_compute. discriminate.
Qed.

Lemma anonymous_read_key_witness :
  trace (snd (execute Sample.print Sample.parse Sample.anonymous Sample.first
                      Sample.request_ok Sample.empty_world)) =
  [StoreGet 0 ("fqc:" +:+ SHA256.sha256_hex anonymous_text)].
Proof.
  exact (proj1 (anonymous_read_key Sample.print Sample.parse Sample.anonymous
                  Sample.first Sample.request_ok Sample.empty_world
                  eq_refl eq_refl eq_refl eq_refl eq_refl eq_refl eq_refl)).
Defined.

Lemma requests_share_no_state_witness :
  listener_env Sample.first <> listener_env Sample.second /\
  fst (execute Sample.print Sample.parse Sample.logged_in Sample.second
         Sample.request_ok
         (snd (execute Sample.print Sample.parse Sample.logged_in
                       Sample.first Sample.request_ab Sample.public_world))) =
  fst (execute Sample.print Sample.parse Sample.logged_in Sample.second
         Sample.request_ok Sample.public_world).
Proof.
  assert (Hne : listener_env Sample.first <> listener_env Sample.second)
    by (cbn; lia).
  split; [exact Hne|].
  exact (proj1 (proj1 (proj2 (proj2
    (requests_share_no_state Sample.print Sample.parse Sample.logged_in
       Sample.request_ok Sample.empty_world)
    Sample.first Sample.second Sample.request_ab Sample.request_ok
    Sample.logged_in Sample.public_world Hne)))).
Defined.

(** * Further properties of the plugin *)

Section MoreFacts.

Context {DocumentNode : Type}.
Variable print : DocumentNode -> string.
Variable JSON_parse : string -> Outcome jsval.

Implicit Types (this : Listener) (w : World) (base : jsobject)
  (mode : SessionMode) (requestContext : @GraphQLRequestContext DocumentNode)
  (options : @Options DocumentNode).

(** X1. When the session hook fails, [execute] fails with the hook's
    error at once: the extra data hook is not consulted, no store is
    read and the world, the listener's environment included, is exactly
    as before. *)
Theorem execute_session_hook_failure options this requestContext w hook e :
  options_sessionId options = Some hook ->
  hook requestContext = Thrown e ->
  execute print JSON_parse options this requestContext w = (Thrown e, w).
Proof.
  intros Hopt Hhook. rewrite execute_hooks_then.
  unfold hooks_then, bind, await. by rewrite Hopt, Hhook.
Qed.

(** X2. When the session id is resolved and the extra data hook then
    fails, [execute] fails with that hook's error without reading a
    store; the listener's environment holds the session id already, and
    its [invokedHooks] flag and extra data are as before. *)
Theorem execute_extra_hook_failure options this requestContext w sid hook e :
  resolve (options_sessionId options) requestContext
          (sessionId (envs w (listener_env this))) = Returned sid ->
  options_extraCacheKeyData options = Some hook ->
  hook requestContext = Thrown e ->
  let out := execute print JSON_parse options this requestContext w in
  fst out = Thrown e /\
  trace (snd out) = trace w /\
  stores (snd out) = stores w /\
  envs (snd out) (listener_env this) =
    {| invokedHooks := invokedHooks (envs w (listener_env this));
       sessionId := sid;
       extraCacheKeyData := extraCacheKeyData (envs w (listener_env this)) |}.
Proof.
  intros Hs Hopt Hhook out.
  destruct (execute_fail print JSON_parse options this requestContext w e)
    as (w1 & (Hst & Htr & _ & Henv & _) & Hrun).
  { right. exists sid. split; [exact Hs|]. unfold resolve.
    by rewrite Hopt. }
  fold out in Hrun. rewrite Hrun. cbn [fst snd].
  rewrite Hs in Henv. by rewrite Henv.
Qed.

(** X3. Once both hooks have answered, the listener's environment
    holds their answers and the flag is set, whatever the lookup then
    does (a hit, a miss, or a stored text that does not parse): a later
    [willSendResponse] on the same listener returns normally for every
    response and never throws the consistency error. *)
Theorem willSendResponse_after_execute options this requestContext w sid extra
    requestContext' :
  resolve (options_sessionId options) requestContext
          (sessionId (envs w (listener_env this))) = Returned sid ->
  resolve (options_extraCacheKeyData options) requestContext
          (extraCacheKeyData (envs w (listener_env this))) = Returned extra ->
  let w' := snd (execute print JSON_parse options this requestContext w) in
  envs w' (listener_env this) =
    {| invokedHooks := true; sessionId := sid; extraCacheKeyData := extra |} /\
  willSendResponse this requestContext' w' = (Returned tt, w').
Proof.
  intros Hs He w'.
  destruct (execute_run print JSON_parse options this requestContext w
              sid extra Hs He) as (w1 & (_ & _ & _ & Henv & _) & Hrun).
  rewrite lookup_run in Hrun.
  assert (Henv' : envs w' (listener_env this) =
                  {| invokedHooks := true; sessionId := sid;
                     extraCacheKeyData := extra |}).
  { unfold w'. rewrite Hrun.
    destruct sid as [s|];
      [destruct (entry_at _ _ _ _ _) as [[]|]|];
      cbn [snd logged envs]; exact Henv. }
  split; [exact Henv'|].
  destruct (eligible (response requestContext')) eqn:E.
  - apply eligible_returns; [done|]. by rewrite Henv'.
  - by apply not_eligible_returns.
Qed.



(** X6. A private entry whose text does not parse makes [execute]
    fail with the parser's error after that single read: it does not
    fall back to the public partition. *)
Theorem execute_corrupt_private_entry options this requestContext w s extra
    text e :
  resolve (options_sessionId options) requestContext
          (sessionId (envs w (listener_env this))) = Returned (Some s) ->
  resolve (options_extraCacheKeyData options) requestContext
          (extraCacheKeyData (envs w (listener_env this))) = Returned extra ->
  let base := baseCacheKey_of print requestContext extra in
  stores w (wrapped (listener_cache this))
    !! store_key (listener_cache this) (with_session base s) Private =
    Some text ->
  JSON_parse text = Thrown e ->
  let out := execute print JSON_parse options this requestContext w in
  fst out = Thrown e /\
  trace (snd out) = trace w ++ [read_at this (with_session base s) Private].
Proof.
  intros Hs He base Htext Hparse out.
  destruct (execute_run print JSON_parse options this requestContext w
              (Some s) extra Hs He) as (w1 & (Hst & Htr & _) & Hrun).
  pose proof (lookup_run JSON_parse this base (Some s) w1) as Hlook.
  cbv beta iota in Hrun, Hlook. fold base in Hrun.
  rewrite Hlook in Hrun. fold out in Hrun.
  assert (E : entry_at JSON_parse this w1 (with_session base s) Private =
              Thrown e).
  { unfold entry_at, parsed_entry. by rewrite Hst, Htext. }
  rewrite E in Hrun. rewrite Hrun. cbn [fst snd logged trace].
  by rewrite Htr.
Qed.

(** X7. A private entry whose text parses to [null] counts as a miss:
    [execute] goes on to read the public partition and answers what it
    finds there. *)
Theorem execute_null_private_entry options this requestContext w s extra text :
  resolve (options_sessionId options) requestContext
          (sessionId (envs w (listener_env this))) = Returned (Some s) ->
  resolve (options_extraCacheKeyData options) requestContext
          (extraCacheKeyData (envs w (listener_env this))) = Returned extra ->
  let base := baseCacheKey_of print requestContext extra in
  stores w (wrapped (listener_cache this))
    !! store_key (listener_cache this) (with_session base s) Private =
    Some text ->
  JSON_parse text = Returned JNull ->
  let out := execute print JSON_parse options this requestContext w in
  fst out = entry_at JSON_parse this w base AuthenticatedPublic /\
  trace (snd out) =
    trace w ++ [read_at this (with_session base s) Private;
                read_at this base AuthenticatedPublic].
Proof.
  intros Hs He base Htext Hparse out.
  destruct (execute_run print JSON_parse options this requestContext w
              (Some s) extra Hs He) as (w1 & (Hst & Htr & _) & Hrun).
  pose proof (lookup_run JSON_parse this base (Some s) w1) as Hlook.
  cbv beta iota in Hrun, Hlook. fold base in Hrun.
  rewrite Hlook in Hrun. fold out in Hrun.
  assert (E : entry_at JSON_parse this w1 (with_session base s) Private =
              Returned JNull).
  { unfold entry_at, parsed_entry. by rewrite Hst, Htext. }
  rewrite E in Hrun. rewrite Hrun. cbn [fst snd logged trace].
  rewrite Htr. split; [|done]. by apply entry_at_stores.
Qed.

(** The lookups of one [execute]: at most two. *)
Lemma execute_lookups options this requestContext w :
  exists lookups,
    trace (snd (execute print JSON_parse options this requestContext w)) =
      trace w ++ reads_at this lookups /\
    length lookups <= 2.
Proof.
  set (l := listener_env this).
  destruct (resolve (options_sessionId options) requestContext
              (sessionId (envs w l))) as [sid|e] eqn:Hs;
    [destruct (resolve (options_extraCacheKeyData options) requestContext
              (extraCacheKeyData (envs w l))) as [extra|e] eqn:He|].
  - destruct (execute_run print JSON_parse options this requestContext w
                sid extra Hs He) as (w1 & (_ & Htr & _) & Hrun).
    rewrite lookup_run in Hrun.
    set (base := baseCacheKey_of print requestContext extra) in *.
    destruct sid as [s|];
      [destruct (entry_at JSON_parse this w1 (with_session base s) Private)
         as [[]|]|];
      rewrite Hrun; cbn [snd logged trace]; rewrite Htr.
    all: try (exists [(with_session base s, Private)]; split; [done|];
              cbn; lia).
    + exists [(with_session base s, Private); (base, AuthenticatedPublic)].
      split; [done|]. cbn; lia.
    + exists [(base, NoSession)]. split; [done|]. cbn; lia.
  - destruct (execute_fail print JSON_parse options this requestContext w e)
      as (w1 & (_ & Htr & _) & Hrun); [right; eauto|].
    rewrite Hrun. cbn [snd]. exists []. rewrite Htr, app_nil_r.
    split; [done|]. cbn; lia.
  - destruct (execute_fail print JSON_parse options this requestContext w e)
      as (w1 & (_ & Htr & _) & Hrun); [by left|].
    rewrite Hrun. cbn [snd]. exists []. rewrite Htr, app_nil_r.
    split; [done|]. cbn; lia.
Qed.

(** X8. A listener reads from one cache only: the cache of the options
    when one is configured, else the cache of the request context that
    [requestDidStart] was given; the cache of the request context
    passed to [execute] plays no part. One [execute] makes at most two
    store calls, each a [get] at a key made of the prefix [fqc:] and 64
    characters. *)
Theorem execute_reads_its_cache options outer w0 this w1 requestContext w :
  requestDidStart options outer w0 = (Returned this, w1) ->
  exists evs,
    trace (snd (execute print JSON_parse options this requestContext w)) =
      trace w ++ evs /\
    length evs <= 2 /\
    Forall (is_read_of (default (cache outer) (options_cache options))) evs.
Proof.
  intros Hstart.
  apply requestDidStart_run in Hstart as (_ & Hprefix & Hwrapped & _).
  destruct (execute_lookups options this requestContext w)
    as (lookups & Htr & Hlen).
  exists (reads_at this lookups). split; [exact Htr|]. split.
  - unfold reads_at. by rewrite length_map.
  - unfold reads_at. apply Forall_map, Forall_forall. intros [b m] _.
    exists (cacheKey b m). split.
    + unfold read_at, store_key. cbn [fst snd]. by rewrite Hprefix, Hwrapped.
    + apply sha256_hex_shape.
Qed.

(** X9. The answer of [execute] depends on the store only through the
    values at the keys it reads: a world whose store agrees on those
    keys, whatever else it holds, gives the same answer. *)
Theorem execute_answer_depends_on_its_keys options this requestContext w w2
    sid extra :
  let l := listener_env this in
  let c := listener_cache this in
  resolve (options_sessionId options) requestContext
          (sessionId (envs w l)) = Returned sid ->
  resolve (options_extraCacheKeyData options) requestContext
          (extraCacheKeyData (envs w l)) = Returned extra ->
  envs w2 l = envs w l ->
  let base := baseCacheKey_of print requestContext extra in
  match sid with
  | None =>
      stores w2 (wrapped c) !! store_key c base NoSession =
      stores w (wrapped c) !! store_key c base NoSession
  | Some s =>
      stores w2 (wrapped c) !! store_key c (with_session base s) Private =
      stores w (wrapped c) !! store_key c (with_session base s) Private /\
      stores w2 (wrapped c) !! store_key c base AuthenticatedPublic =
      stores w (wrapped c) !! store_key c base AuthenticatedPublic
  end ->
  fst (execute print JSON_parse options this requestContext w2) =
  fst (execute print JSON_parse options this requestContext w).
Proof.
  intros l c Hs He Henv base Hkeys.
  destruct (execute_run print JSON_parse options this requestContext w
              sid extra Hs He) as (w1 & (Hst & _) & Hrun).
  fold l in Hs, He. rewrite <- Henv in Hs, He.
  destruct (execute_run print JSON_parse options this requestContext w2
              sid extra Hs He) as (w1' & (Hst' & _) & Hrun').
  rewrite lookup_run in Hrun, Hrun'. fold base in Hrun, Hrun'.
  rewrite Hrun, Hrun'. unfold entry_at. rewrite Hst, Hst'. fold c.
  destruct sid as [s|].
  - destruct Hkeys as [Hp Ha]. rewrite Hp, Ha.
    by destruct (parsed_entry _ _) as [[]|].
  - by rewrite Hkeys.
Qed.

(** [execute] reads the world through the stores and through what the
    hooks resolve to. *)
Lemma execute_agree_resolved options this requestContext w w2 :
  let l := listener_env this in
  stores w2 = stores w ->
  resolve (options_sessionId options) requestContext
          (sessionId (envs w2 l)) =
  resolve (options_sessionId options) requestContext
          (sessionId (envs w l)) ->
  resolve (options_extraCacheKeyData options) requestContext
          (extraCacheKeyData (envs w2 l)) =
  resolve (options_extraCacheKeyData options) requestContext
          (extraCacheKeyData (envs w l)) ->
  let out := execute print JSON_parse options this requestContext w in
  let out2 := execute print JSON_parse options this requestContext w2 in
  fst out2 = fst out /\
  exists evs,
    trace (snd out) = trace w ++ evs /\ trace (snd out2) = trace w2 ++ evs.
Proof.
  intros l. subst l. intros Hst Hrs Hre out out2.
  destruct (resolve (options_sessionId options) requestContext
              (sessionId (envs w (listener_env this)))) as [sid|e] eqn:Hs;
    [destruct (resolve (options_extraCacheKeyData options) requestContext
              (extraCacheKeyData (envs w (listener_env this))))
       as [extra|e] eqn:He|].
  - destruct (execute_run print JSON_parse options this requestContext w
                sid extra Hs He) as (w1 & (Hst1 & Htr1 & _) & Hrun).
    destruct (execute_run print JSON_parse options this requestContext w2
                sid extra Hrs Hre) as (w1' & (Hst1' & Htr1' & _) & Hrun').
    rewrite lookup_run in Hrun, Hrun'. fold out in Hrun. fold out2 in Hrun'.
    set (base := baseCacheKey_of print requestContext extra) in *.
    assert (E : forall b m, entry_at JSON_parse this w1' b m =
                            entry_at JSON_parse this w1 b m).
    { intros b m. apply entry_at_stores. congruence. }
    destruct sid as [s|];
      rewrite ?(E _ Private), ?(E _ NoSession), ?(E _ AuthenticatedPublic)
        in Hrun';
      [destruct (entry_at JSON_parse this w1 (with_session base s) Private)
         as [[]|]|];
      rewrite Hrun, Hrun'; cbn [fst snd logged trace];
      (split; [done|]); eexists; rewrite Htr1, Htr1'; split; reflexivity.
  - destruct (execute_fail print JSON_parse options this requestContext w e)
      as (w1 & (_ & Htr1 & _) & Hrun); [right; eauto|].
    destruct (execute_fail print JSON_parse options this requestContext w2 e)
      as (w1' & (_ & Htr1' & _) & Hrun'); [right; eauto|].
    fold out in Hrun. fold out2 in Hrun'. rewrite Hrun, Hrun'. cbn [fst snd].
    split; [done|]. exists []. by rewrite !app_nil_r.
  - destruct (execute_fail print JSON_parse options this requestContext w e)
      as (w1 & (_ & Htr1 & _) & Hrun); [by left|].
    destruct (execute_fail print JSON_parse options this requestContext w2 e)
      as (w1' & (_ & Htr1' & _) & Hrun'); [by left|].
    fold out in Hrun. fold out2 in Hrun'. rewrite Hrun, Hrun'. cbn [fst snd].
    split; [done|]. exists []. by rewrite !app_nil_r.
Qed.

(** After [execute], the hooks resolve to what they resolved to
    before. *)
Lemma resolve_after_execute options this requestContext w :
  let l := listener_env this in
  let w' := snd (execute print JSON_parse options this requestContext w) in
  resolve (options_sessionId options) requestContext (sessionId (envs w' l)) =
  resolve (options_sessionId options) requestContext (sessionId (envs w l)) /\
  resolve (options_extraCacheKeyData options) requestContext
          (extraCacheKeyData (envs w' l)) =
  resolve (options_extraCacheKeyData options) requestContext
          (extraCacheKeyData (envs w l)).
Proof.
  intros l w'. subst l.
  destruct (resolve (options_sessionId options) requestContext
              (sessionId (envs w (listener_env this)))) as [sid|e] eqn:Hs;
    [destruct (resolve (options_extraCacheKeyData options) requestContext
              (extraCacheKeyData (envs w (listener_env this))))
       as [extra|e] eqn:He|].
  - destruct (execute_run print JSON_parse options this requestContext w
                sid extra Hs He) as (w1 & (_ & _ & _ & Henv & _) & Hrun).
    rewrite lookup_run in Hrun.
    assert (Henv' : envs w' (listener_env this) =
                    {| invokedHooks := true; sessionId := sid;
                       extraCacheKeyData := extra |}).
    { unfold w'. rewrite Hrun.
      destruct sid as [s|];
        [destruct (entry_at _ _ _ _ _) as [[]|]|];
        cbn [snd logged envs]; exact Henv. }
    rewrite Henv'. cbn [sessionId extraCacheKeyData].
    unfold resolve in *.
    destruct (options_sessionId options), (options_extraCacheKeyData options);
      by simplify_eq.
  - destruct (execute_fail print JSON_parse options this requestContext w e)
      as (w1 & (_ & _ & _ & Henv & _) & Hrun); [right; eauto|].
    unfold w'. rewrite Hrun. cbn [snd]. rewrite Henv, Hs.
    cbn [set_sessionId sessionId extraCacheKeyData].
    unfold resolve in *.
    destruct (options_sessionId options), (options_extraCacheKeyData options);
      by simplify_eq.
  - destruct (execute_fail print JSON_parse options this requestContext w e)
      as (w1 & (_ & _ & _ & Henv & _) & Hrun); [by left|].
    unfold w'. rewrite Hrun. cbn [snd]. by rewrite Henv, Hs.
Qed.

(** X10. A lookup can be repeated: a second [execute] of the same
    request on the same listener gives the same answer as the first
    and makes the same store calls again. *)
Theorem execute_twice options this requestContext w :
  let out := execute print JSON_parse options this requestContext w in
  let again :=
    execute print JSON_parse options this requestContext (snd out) in
  fst again = fst out /\
  exists evs,
    trace (snd out) = trace w ++ evs /\
    trace (snd again) = trace w ++ evs ++ evs.
Proof.
  cbv zeta.
  destruct (resolve_after_execute options this requestContext w)
    as [Hrs Hre].
  destruct (execute_frame print JSON_parse options this requestContext w)
    as (Hst & _).
  destruct (execute_agree_resolved options this requestContext w _
              Hst Hrs Hre) as (Hfst & evs & Htr & Htr').
  split; [exact Hfst|]. exists evs. split; [exact Htr|].
  by rewrite Htr', Htr, app_assoc.
Qed.

End MoreFacts.

(** * The text that is hashed *)

(** ** Strings are quoted without ambiguity *)

Lemma unescape_escape_char (c : ascii) (r : string) :
  unescape_char (JSON.escape_char c +:+ r) = Some (c, r).
Proof.
  destruct c as [[] [] [] [] [] [] [] []]; reflexivity.
Qed.

Lemma escape_prefix_free (s1 s2 r1 r2 : string) :
  JSON.escape s1 +:+ String JSON.dquote r1 =
  JSON.escape s2 +:+ String JSON.dquote r2 ->
  s1 = s2 /\ r1 = r2.
Proof.
  revert s2. induction s1 as [|c1 s1 IH]; intros [|c2 s2] H.
  - by injection H as ->.
  - apply (f_equal unescape_char) in H.
    cbn [JSON.escape] in H. rewrite append_assoc in H.
    rewrite unescape_escape_char in H. discriminate H.
  - apply (f_equal unescape_char) in H.
    cbn [JSON.escape] in H. rewrite append_assoc in H.
    rewrite unescape_escape_char in H. discriminate H.
  - apply (f_equal unescape_char) in H.
    cbn [JSON.escape] in H. rewrite !append_assoc in H.
    rewrite !unescape_escape_char in H. injection H as -> H.
    by destruct (IH _ H) as [-> ->].
Qed.

Lemma quote_app (s r : string) :
  JSON.quote s +:+ r = String JSON.dquote (JSON.escape s +:+ String JSON.dquote r).
Proof.
  unfold JSON.quote.
  change (String JSON.dquote ((JSON.escape s +:+ String JSON.dquote "") +:+ r) =
          String JSON.dquote (JSON.escape s +:+ String JSON.dquote r)).
  by rewrite append_assoc.
Qed.

Lemma quote_prefix_free (s1 s2 r1 r2 : string) :
  JSON.quote s1 +:+ r1 = JSON.quote s2 +:+ r2 -> s1 = s2 /\ r1 = r2.
Proof.
  rewrite !quote_app. intros [= H]. by apply escape_prefix_free.
Qed.

(** ** Numbers are printed without ambiguity *)

Lemma uint_chars (d : Decimal.uint) :
  all_chars is_number_char (NilEmpty.string_of_uint d) = true.
Proof. induction d; cbn [NilEmpty.string_of_uint all_chars]; by try rewrite IHd. Qed.

Lemma number_chars (z : Z) : all_chars is_number_char (JSON.number z) = true.
Proof.
  unfold JSON.number. destruct (Z.to_int z) as [d|d]; cbn [NilEmpty.string_of_int].
  - apply uint_chars.
  - cbn [all_chars]. by rewrite uint_chars.
Qed.

Lemma number_nonempty (z : Z) :
  exists c t, JSON.number z = String c t /\ is_number_char c = true.
Proof.
  pose proof (number_chars z) as Hchars.
  assert (Hne : JSON.number z <> EmptyString).
  { unfold JSON.number. destruct z as [|p|p]; cbn; try discriminate.
    pose proof (DecimalPos.Unsigned.to_uint_nonnil p) as Hp.
    destruct (Pos.to_uint p); try discriminate. by destruct Hp. }
  destruct (JSON.number z) as [|c t]; [done|].
  exists c, t. split; [done|]. cbn [all_chars] in Hchars.
  by destruct (is_number_char c).
Qed.

Lemma number_inj (z z' : Z) : JSON.number z = JSON.number z' -> z = z'.
Proof.
  unfold JSON.number. intros H. apply DecimalZ.to_int_inj.
  apply (f_equal NilEmpty.int_of_string) in H.
  rewrite !NilEmpty.isi in H. congruence.
Qed.

Lemma number_prefix_app (a r : string) :
  all_chars is_number_char a = true -> closes r = true ->
  number_prefix (a +:+ r) = (a, r).
Proof.
  intros Ha Hr. induction a as [|c a IH].
  - destruct r as [|c r]; [done|]. cbn in Hr |- *.
    change ("" +:+ String c r) with (String c r). cbn [number_prefix].
    by destruct (is_number_char c).
  - cbn [all_chars] in Ha. apply andb_prop in Ha as [Hc Ha].
    change (String c a +:+ r) with (String c (a +:+ r)).
    cbn [number_prefix]. rewrite Hc, (IH Ha). reflexivity.
Qed.

Lemma number_prefix_free (z z' : Z) (r r' : string) :
  closes r = true -> closes r' = true ->
  JSON.number z +:+ r = JSON.number z' +:+ r' -> z = z' /\ r = r'.
Proof.
  intros Hr Hr' H. apply (f_equal number_prefix) in H.
  rewrite !number_prefix_app in H by (done || apply number_chars).
  injection H as H ->. split; [|done]. by apply number_inj.
Qed.

(** ** Sequences and first characters *)

Lemma seq_text_join (close : string) (ms : list string) (r : string) :
  (JSON.join ms +:+ close) +:+ r = seq_text close ms r.
Proof.
  destruct ms as [|m ms]; [by rewrite append_assoc|].
  cbn [seq_text]. revert m. induction ms as [|m' ms IH]; intros m.
  - cbn [JSON.join tail_text]. by rewrite append_assoc.
  - change (JSON.join (m :: m' :: ms))
      with (m +:+ "," +:+ JSON.join (m' :: ms)).
    cbn [tail_text]. rewrite <- IH, !append_assoc. reflexivity.
Qed.

Lemma closes_tail_text (close : string) (ms : list string) (r : string) :
  close = "]" \/ close = "}" -> closes (tail_text close ms r) = true.
Proof. intros [-> | ->]; by destruct ms. Qed.

Lemma number_char_class (c : ascii) (r : string) :
  is_number_char c = true -> head_class (String c r) = 4.
Proof.
  destruct c as [[] [] [] [] [] [] [] []]; intros H; try discriminate H;
    reflexivity.
Qed.

Lemma head_class_text (v : jsval) (t r : string) :
  JSON.stringify v = Some t -> head_class (t +:+ r) = value_class v.
Proof.
  destruct v as [| |[]|z|s|items|props]; intros [= <-]; try reflexivity.
  destruct (number_nonempty z) as (c & t & -> & Hc).
  by apply (number_char_class c (t +:+ r)).
Qed.

Lemma is_json_text (v : jsval) :
  is_json v = true -> exists t, JSON.stringify v = Some t.
Proof. destruct v as [| |[]| | | |]; intros H; try discriminate H; eauto. Qed.

Lemma is_json_class (v : jsval) : is_json v = true -> value_class v <> 0.
Proof. by destruct v as [| |[]| | | |]. Qed.

(** Induction on values through their items and properties. *)
Lemma jsval_nested_ind (P : jsval -> Prop) :
  P JUndefined -> P JNull -> (forall b, P (JBool b)) ->
  (forall z, P (JNum z)) -> (forall s, P (JStr s)) ->
  (forall items, Forall P items -> P (JArr items)) ->
  (forall props, Forall (fun kv => P (snd kv)) props -> P (JObj props)) ->
  forall v, P v.
Proof.
  intros Hu Hn Hb Hz Hs Ha Ho. fix IH 1. intros [| |b|z|s|items|props].
  - exact Hu.
  - exact Hn.
  - apply Hb.
  - apply Hz.
  - apply Hs.
  - apply Ha. induction items as [|x items IHi]; constructor; [apply IH|exact IHi].
  - apply Ho. induction props as [|[k x] props IHp]; constructor;
      [apply IH|exact IHp].
Qed.


Lemma arr_tail_inj (items : list jsval) :
  Forall text_determines items -> forallb is_json items = true ->
  forall items' r r',
    forallb is_json items' = true ->
    tail_text "]" (elems items) r = tail_text "]" (elems items') r' ->
    items = items' /\ r = r'.
Proof.
  induction 1 as [|x items Hx _ IH]; intros Hj [|x' items'] r r' Hj' H.
  - split; [done|]. by apply (inj (String.append "]")) in H.
  - discriminate H.
  - discriminate H.
  - cbn [forallb] in Hj, Hj'.
    apply andb_prop in Hj as [Hjx Hj]. apply andb_prop in Hj' as [Hjx' Hj'].
    destruct (is_json_text x Hjx) as [t Ht].
    destruct (is_json_text x' Hjx') as [t' Ht'].
    cbn [List.map tail_text] in H. rewrite Ht, Ht' in H.
    cbn [JSON.element default] in H.
    apply (inj (String.append ",")) in H.
    destruct (Hx x' t t' _ _ Hjx' Ht Ht'
                (closes_tail_text _ _ _ (or_introl eq_refl))
                (closes_tail_text _ _ _ (or_introl eq_refl)) H) as [-> Htail].
    by destruct (IH Hj _ _ _ Hj' Htail) as [-> ->].
Qed.

Lemma arr_seq_inj (items : list jsval) :
  Forall text_determines items -> forallb is_json items = true ->
  forall items' r r',
    forallb is_json items' = true ->
    seq_text "]" (elems items) r = seq_text "]" (elems items') r' ->
    items = items' /\ r = r'.
Proof.
  intros HP Hj items' r r' Hj' H.
  destruct HP as [|x items Hx HP]; destruct items' as [|x' items'].
  - split; [done|]. by apply (inj (String.append "]")) in H.
  - cbn [forallb] in Hj'. apply andb_prop in Hj' as [Hjx' _].
    destruct (is_json_text x' Hjx') as [t' Ht'].
    apply (f_equal head_class) in H. cbn [List.map seq_text] in H.
    rewrite Ht' in H. cbn [JSON.element default] in H.
    rewrite (head_class_text x' t' _ Ht') in H.
    by destruct (is_json_class x' Hjx').
  - cbn [forallb] in Hj. apply andb_prop in Hj as [Hjx _].
    destruct (is_json_text x Hjx) as [t Ht].
    apply (f_equal head_class) in H. cbn [List.map seq_text] in H.
    rewrite Ht in H. cbn [JSON.element default] in H.
    rewrite (head_class_text x t _ Ht) in H.
    by destruct (is_json_class x Hjx).
  - cbn [forallb] in Hj, Hj'.
    apply andb_prop in Hj as [Hjx Hj]. apply andb_prop in Hj' as [Hjx' Hj'].
    destruct (is_json_text x Hjx) as [t Ht].
    destruct (is_json_text x' Hjx') as [t' Ht'].
    cbn [List.map seq_text] in H. rewrite Ht, Ht' in H.
    cbn [JSON.element default] in H.
    destruct (Hx x' t t' _ _ Hjx' Ht Ht'
                (closes_tail_text _ _ _ (or_introl eq_refl))
                (closes_tail_text _ _ _ (or_introl eq_refl)) H) as [-> Htail].
    by destruct (arr_tail_inj items HP Hj _ _ _ Hj' Htail) as [-> ->].
Qed.


Lemma members_cons (k : string) (v : jsval) (t : string) (props : jsobject) :
  JSON.stringify v = Some t ->
  JSON.members ((k, v) :: props) =
  (JSON.quote k +:+ ":" +:+ t) :: JSON.members props.
Proof.
  intros Ht. unfold JSON.members. cbn [omap list_omap fst snd].
  by rewrite Ht.
Qed.

(** A property text followed by [rest]: the quoted name, a colon, the
    value's text. *)
Lemma member_inj (k k' : string) (v v' : jsval) (t t' rest rest' : string) :
  text_determines v -> is_json v' = true ->
  JSON.stringify v = Some t -> JSON.stringify v' = Some t' ->
  closes rest = true -> closes rest' = true ->
  (JSON.quote k +:+ ":" +:+ t) +:+ rest =
  (JSON.quote k' +:+ ":" +:+ t') +:+ rest' ->
  k = k' /\ v = v' /\ rest = rest'.
Proof.
  intros Hv Hj' Ht Ht' Hc Hc' H. rewrite !append_assoc in H.
  apply quote_prefix_free in H as [-> H].
  apply (inj (String.append ":")) in H.
  by destruct (Hv v' t t' _ _ Hj' Ht Ht' Hc Hc' H) as [-> ->].
Qed.

Lemma obj_tail_inj (props : jsobject) :
  Forall (fun kv => text_determines (snd kv)) props ->
  json_props props = true ->
  forall props' r r',
    json_props props' = true ->
    tail_text "}" (JSON.members props) r =
    tail_text "}" (JSON.members props') r' ->
    props = props' /\ r = r'.
Proof.
  induction 1 as [|[k x] props Hx _ IH]; intros Hj [|[k' x'] props'] r r' Hj' H.
  - split; [done|]. by apply (inj (String.append "}")) in H.
  - cbn [forallb snd] in Hj'. apply andb_prop in Hj' as [Hjx' _].
    destruct (is_json_text x' Hjx') as [t' Ht'].
    rewrite (members_cons _ _ _ _ Ht') in H. discriminate H.
  - cbn [forallb snd] in Hj. apply andb_prop in Hj as [Hjx _].
    destruct (is_json_text x Hjx) as [t Ht].
    rewrite (members_cons _ _ _ _ Ht) in H. discriminate H.
  - cbn [forallb snd] in Hj, Hj'.
    apply andb_prop in Hj as [Hjx Hj]. apply andb_prop in Hj' as [Hjx' Hj'].
    destruct (is_json_text x Hjx) as [t Ht].
    destruct (is_json_text x' Hjx') as [t' Ht'].
    rewrite (members_cons _ _ _ _ Ht), (members_cons _ _ _ _ Ht') in H.
    cbn [tail_text] in H. apply (inj (String.append ",")) in H.
    destruct (member_inj k k' x x' t t' _ _ Hx Hjx' Ht Ht'
                (closes_tail_text _ _ _ (or_intror eq_refl))
                (closes_tail_text _ _ _ (or_intror eq_refl)) H)
      as (-> & -> & Htail).
    by destruct (IH Hj _ _ _ Hj' Htail) as [-> ->].
Qed.

Lemma quote_head (k rest : string) :
  String.get 0 (JSON.quote k +:+ rest) = Some JSON.dquote.
Proof. reflexivity. Qed.

Lemma obj_seq_inj (props : jsobject) :
  Forall (fun kv => text_determines (snd kv)) props ->
  json_props props = true ->
  forall props' r r',
    json_props props' = true ->
    seq_text "}" (JSON.members props) r =
    seq_text "}" (JSON.members props') r' ->
    props = props' /\ r = r'.
Proof.
  intros HP Hj props' r r' Hj' H.
  destruct HP as [|[k x] props Hx HP]; destruct props' as [|[k' x'] props'].
  - split; [done|]. by apply (inj (String.append "}")) in H.
  - cbn [forallb snd] in Hj'. apply andb_prop in Hj' as [Hjx' _].
    destruct (is_json_text x' Hjx') as [t' Ht'].
    rewrite (members_cons _ _ _ _ Ht') in H. cbn [seq_text] in H.
    apply (f_equal (String.get 0)) in H. rewrite append_assoc, quote_head in H.
    discriminate H.
  - cbn [forallb snd] in Hj. apply andb_prop in Hj as [Hjx _].
    destruct (is_json_text x Hjx) as [t Ht].
    rewrite (members_cons _ _ _ _ Ht) in H. cbn [seq_text] in H.
    apply (f_equal (String.get 0)) in H. rewrite append_assoc, quote_head in H.
    discriminate H.
  - cbn [forallb snd] in Hj, Hj'.
    apply andb_prop in Hj as [Hjx Hj]. apply andb_prop in Hj' as [Hjx' Hj'].
    destruct (is_json_text x Hjx) as [t Ht].
    destruct (is_json_text x' Hjx') as [t' Ht'].
    rewrite (members_cons _ _ _ _ Ht), (members_cons _ _ _ _ Ht') in H.
    cbn [seq_text] in H.
    destruct (member_inj k k' x x' t t' _ _ Hx Hjx' Ht Ht'
                (closes_tail_text _ _ _ (or_intror eq_refl))
                (closes_tail_text _ _ _ (or_intror eq_refl)) H)
      as (-> & -> & Htail).
    by destruct (obj_tail_inj props HP Hj _ _ _ Hj' Htail) as [-> ->].
Qed.

Lemma Forall_json (Q : jsval -> Prop) (items : list jsval) :
  Forall (fun v => is_json v = true -> Q v) items ->
  forallb is_json items = true -> Forall Q items.
Proof.
  induction 1 as [|x items Hx _ IH]; intros Hj; constructor;
    cbn [forallb] in Hj; apply andb_prop in Hj as [Hjx Hj]; auto.
Qed.

Lemma Forall_json_props (Q : jsval -> Prop) (props : jsobject) :
  Forall (fun kv => is_json (snd kv) = true -> Q (snd kv)) props ->
  json_props props = true -> Forall (fun kv => Q (snd kv)) props.
Proof.
  induction 1 as [|x props Hx _ IH]; intros Hj; constructor;
    cbn [forallb] in Hj; apply andb_prop in Hj as [Hjx Hj]; auto.
Qed.

(** ** A JSON value can be read back from its text *)

Lemma stringify_prefix_free (v : jsval) :
  is_json v = true -> text_determines v.
Proof.
  induction v as [| |b|z|s|items IH|props IH] using jsval_nested_ind;
    intros Hj v' t t' r r' Hj' Ht Ht' Hc Hc' H; [discriminate Hj|..].
  all: pose proof (f_equal head_class H) as Hclass;
    rewrite (head_class_text _ _ _ Ht), (head_class_text _ _ _ Ht') in Hclass.
  all: destruct v' as [| |b'|z'|s'|items'|props']; try discriminate Hj';
    try (destruct b'; discriminate Hclass);
    try (destruct b; discriminate Hclass); try discriminate Hclass.
  - injection Ht as <-. injection Ht' as <-.
    split; [done|]. by apply (inj (String.append "null")) in H.
  - destruct b, b'; try discriminate Hclass;
      injection Ht as <-; injection Ht' as <-; (split; [done|]);
      by apply (inj (String.append _)) in H.
  - injection Ht as <-. injection Ht' as <-.
    by destruct (number_prefix_free z z' r r' Hc Hc' H) as [-> ->].
  - injection Ht as <-. injection Ht' as <-.
    by destruct (quote_prefix_free s s' r r' H) as [-> ->].
  - injection Ht as <-. injection Ht' as <-.
    rewrite !(append_assoc "["), !seq_text_join in H.
    apply (inj (String.append "[")) in H.
    cbn [is_json] in Hj, Hj'.
    by destruct (arr_seq_inj items (Forall_json _ _ IH Hj) Hj items' r r'
                  Hj' H) as [-> ->].
  - injection Ht as <-. injection Ht' as <-.
    rewrite !(append_assoc "{"), !seq_text_join in H.
    apply (inj (String.append "{")) in H.
    cbn [is_json] in Hj, Hj'.
    by destruct (obj_seq_inj props (Forall_json_props _ _ IH Hj) Hj props'
                  r r' Hj' H) as [-> ->].
Qed.

Lemma append_empty (s : string) : s +:+ "" = s.
Proof. induction s as [|c s IH]; [done|]. change (String c (s +:+ "") = String c s). by rewrite IH. Qed.

Lemma stringify_injective (v v' : jsval) :
  is_json v = true -> is_json v' = true ->
  JSON.stringify v = JSON.stringify v' -> v = v'.
Proof.
  intros Hj Hj' H. destruct (is_json_text v Hj) as [t Ht].
  assert (Ht' : JSON.stringify v' = Some t) by congruence.
  by destruct (stringify_prefix_free v Hj v' t t "" "" Hj' Ht Ht' eq_refl eq_refl
                 eq_refl).
Qed.

Section KeyText.

Context {DocumentNode : Type}.
Variable print : DocumentNode -> string.

Implicit Types (rc : @GraphQLRequestContext DocumentNode).

Lemma key_text_fields rc extra sid mode :
  key_text print rc extra sid mode =
  JSON.stringify_object
    (key_fields (print (document rc)) (operationName rc)
                (variables (request rc)) extra sid mode).
Proof. unfold key_text, lookup_object. by destruct sid. Qed.

Lemma key_text_serialized rc extra sid mode :
  Some (key_text print rc extra sid mode) =
  JSON.stringify
    (JObj (serialized_fields (print (document rc)) (operationName rc)
             (variables (request rc)) extra sid mode)).
Proof.
  rewrite key_text_fields, stringify_object_eq. f_equal.
  unfold JSON.stringify_object. do 3 f_equal.
  destruct (variables (request rc)), extra as [| |[]| | | |], sid; reflexivity.
Qed.

Lemma serialized_fields_json rc extra sid mode :
  variables_are_json rc = true -> extra_is_json extra = true ->
  is_json (JObj (serialized_fields (print (document rc)) (operationName rc)
                   (variables (request rc)) extra sid mode)) = true.
Proof.
  unfold variables_are_json. intros Hv He.
  destruct (variables (request rc)) as [vars|], (operationName rc), sid;
    destruct extra; try discriminate He;
    cbn [is_json extra_is_json] in Hv, He; cbn; rewrite ?Hv, ?He; reflexivity.
Qed.

Lemma opt_field_inj (k : string) (o1 o2 : option jsval) (R1 R2 : jsobject) :
  head_key R1 <> Some k -> head_key R2 <> Some k ->
  opt_field k o1 ++ R1 = opt_field k o2 ++ R2 -> o1 = o2 /\ R1 = R2.
Proof.
  intros H1 H2 H. destruct o1, o2; cbn in H; simplify_eq; try done;
    by cbn in *.
Qed.

Lemma head_key_opt_field (k : string) (o : option jsval) (R : jsobject) :
  head_key (opt_field k o ++ R) =
  match o with Some _ => Some k | None => head_key R end.
Proof. by destruct o. Qed.

Lemma defined_inj (v v' : jsval) : defined v = defined v' -> v = v'.
Proof. destruct v, v'; cbn; congruence. Qed.


Lemma stringify_object_seq (o : jsobject) :
  JSON.stringify_object o = "{" +:+ seq_text "}" (JSON.members o) "".
Proof.
  unfold JSON.stringify_object. by rewrite <- seq_text_join, append_empty.
Qed.

Lemma mode_value_inj (m m' : SessionMode) :
  SessionMode_value m = SessionMode_value m' -> m = m'.
Proof. by destruct m, m'. Qed.

Lemma nullable_text (o : option string) :
  exists t, JSON.stringify (of_nullable o) = Some t.
Proof. destruct o; cbn; eauto. Qed.

(** The text of a nullable name: [null] or the quoted name. *)
Lemma nullable_prefix_free (o o' : option string) (t t' r r' : string) :
  JSON.stringify (of_nullable o) = Some t ->
  JSON.stringify (of_nullable o') = Some t' ->
  t +:+ r = t' +:+ r' -> o = o' /\ r = r'.
Proof.
  destruct o as [n|], o' as [n'|]; intros [= <-] [= <-] H.
  - by apply quote_prefix_free in H as [-> ->].
  - apply (f_equal (String.get 0)) in H. rewrite quote_head in H.
    discriminate H.
  - apply (f_equal (String.get 0)) in H. rewrite quote_head in H.
    discriminate H.
  - split; [done|]. by apply (inj (String.append "null")) in H.
Qed.

(** X12. Whatever the variables and the extra data hold, lookups with
    different printed documents or different operation names are hashed
    from different texts. *)
Theorem key_text_names_request rc1 extra1 sid1 mode1 rc2 extra2 sid2 mode2 :
  key_text print rc1 extra1 sid1 mode1 = key_text print rc2 extra2 sid2 mode2 ->
  print (document rc1) = print (document rc2) /\
  operationName rc1 = operationName rc2.
Proof.
  rewrite !key_text_fields, !stringify_object_seq. intros H.
  apply (inj (String.append "{")) in H. unfold key_fields in H.
  cbn [app] in H.
  destruct (nullable_text (operationName rc1)) as [t1 Ht1].
  destruct (nullable_text (operationName rc2)) as [t2 Ht2].
  rewrite !(members_cons "document" (JStr _) _ _ eq_refl) in H.
  rewrite (members_cons "operationName" _ _ _ Ht1),
    (members_cons "operationName" _ _ _ Ht2) in H.
  cbn [seq_text tail_text] in H. rewrite !append_assoc in H.
  apply quote_prefix_free in H as [_ H].
  apply (inj (String.append ":")) in H.
  apply quote_prefix_free in H as [Hdoc H].
  apply (inj (String.append ",")) in H.
  apply quote_prefix_free in H as [_ H].
  apply (inj (String.append ":")) in H.
  by destruct (nullable_prefix_free _ _ _ _ _ _ Ht1 Ht2 H) as [Hop _].
Qed.

Lemma text_with_session (d : string) (o1 : jsobject) (s : string) (v : Z) :
  JSON.stringify_object
    (("document", JStr d) :: o1 ++
       [("sessionId", JStr s); ("sessionMode", JNum v)]) =
  "{" +:+ JSON.join (JSON.members (("document", JStr d) :: o1)) +:+ ","
      +:+ JSON.quote "sessionId" +:+ ":" +:+ JSON.quote s +:+ ","
      +:+ JSON.quote "sessionMode" +:+ ":" +:+ JSON.number v +:+ "}".
Proof.
  rewrite (stringify_object_split "document" d o1
             [("sessionId", JStr s); ("sessionMode", JNum v)]
             (JSON.quote "sessionId" +:+ ":" +:+ JSON.quote s)
             [JSON.quote "sessionMode" +:+ ":" +:+ JSON.number v] eq_refl).
  cbn [JSON.join]. by rewrite !append_assoc.
Qed.

Lemma text_without_session (d : string) (o1 : jsobject) (v : Z) :
  JSON.stringify_object
    (("document", JStr d) :: o1 ++ [("sessionMode", JNum v)]) =
  "{" +:+ JSON.join (JSON.members (("document", JStr d) :: o1)) +:+ ","
      +:+ JSON.quote "sessionMode" +:+ ":" +:+ JSON.number v +:+ "}".
Proof.
  rewrite (stringify_object_split "document" d o1
             [("sessionMode", JNum v)]
             (JSON.quote "sessionMode" +:+ ":" +:+ JSON.number v) [] eq_refl).
  cbn [JSON.join]. by rewrite !append_assoc.
Qed.

(** X13. For one request and one extra data value, the text that is
    hashed tells the session ids and the session modes apart: two
    sessions never share the text of a private key, and the no-session
    and authenticated-public texts of a request differ. *)
Theorem key_text_names_session rc extra sid1 mode1 sid2 mode2 :
  key_text print rc extra sid1 mode1 = key_text print rc extra sid2 mode2 ->
  sid1 = sid2 /\ mode1 = mode2.
Proof.
  rewrite !key_text_fields. unfold key_fields. intros H.
  set (o1 := [("operationName", of_nullable (operationName rc));
              ("variables", of_optional (variables (request rc)));
              ("extra", extra)]) in *.
  set (d := print (document rc)) in *.
  assert (Hsome : forall s m,
    JSON.stringify_object
      ([("document", JStr d); ("operationName", of_nullable (operationName rc));
        ("variables", of_optional (variables (request rc))); ("extra", extra)]
       ++ [("sessionId", JStr s)]
       ++ [("sessionMode", JNum (SessionMode_value m))]) =
    JSON.stringify_object
      (("document", JStr d) :: o1 ++
         [("sessionId", JStr s); ("sessionMode", JNum (SessionMode_value m))]))
    by reflexivity.
  assert (Hnone : forall m,
    JSON.stringify_object
      ([("document", JStr d); ("operationName", of_nullable (operationName rc));
        ("variables", of_optional (variables (request rc))); ("extra", extra)]
       ++ [] ++ [("sessionMode", JNum (SessionMode_value m))]) =
    JSON.stringify_object
      (("document", JStr d) :: o1 ++
         [("sessionMode", JNum (SessionMode_value m))]))
    by reflexivity.
  destruct sid1 as [s1|], sid2 as [s2|];
    rewrite ?Hsome, ?Hnone, ?text_with_session, ?text_without_session in H;
    do 3 apply (inj (String.append _)) in H;
    apply quote_prefix_free in H as [Hk H]; try discriminate Hk;
    apply (inj (String.append ":")) in H.
  - apply quote_prefix_free in H as [-> H].
    apply (inj (String.append ",")) in H.
    apply quote_prefix_free in H as [_ H].
    apply (inj (String.append ":")) in H.
    apply number_prefix_free in H as [H _]; [|done..].
    by rewrite (mode_value_inj _ _ H).
  - apply number_prefix_free in H as [H _]; [|done..].
    by rewrite (mode_value_inj _ _ H).
Qed.

(** X14. A property of the extra data whose value is [undefined] does
    not reach the key: the extra data with and without it get the same
    key. *)
Theorem undefined_property_dropped rc (o1 o2 : jsobject) (k : string) sid mode :
  cacheKey (lookup_object print rc (JObj (o1 ++ (k, JUndefined) :: o2)) sid)
           mode =
  cacheKey (lookup_object print rc (JObj (o1 ++ o2)) sid) mode.
Proof.
  assert (E : JSON.stringify (JObj (o1 ++ (k, JUndefined) :: o2)) =
              JSON.stringify (JObj (o1 ++ o2))).
  { rewrite !stringify_object_eq. unfold JSON.stringify_object.
    by rewrite !members_app. }
  unfold cacheKey. f_equal.
  change (key_text print rc (JObj (o1 ++ (k, JUndefined) :: o2)) sid mode =
          key_text print rc (JObj (o1 ++ o2)) sid mode).
  rewrite !key_text_fields. unfold JSON.stringify_object, key_fields.
  do 3 f_equal. unfold JSON.members. cbn [app omap list_omap fst snd].
  by rewrite E.
Qed.

End KeyText.

(** * The further properties on the sample requests *)

Lemma execute_session_hook_failure_witness :
  execute Sample.print Sample.parse Cases.denied Sample.first
          Sample.request_ok Sample.empty_world =
  (Thrown (HookFailure "denied"), Sample.empty_world).
Proof.
  exact (execute_session_hook_failure Sample.print Sample.parse Cases.denied
           Sample.first Sample.request_ok Sample.empty_world _ _
           eq_refl eq_refl).
Defined.

Lemma execute_extra_hook_failure_witness :
  fst (execute Sample.print Sample.parse Cases.no_extra Sample.first
               Sample.request_ok Sample.empty_world) =
    Thrown (HookFailure "no language") /\
  trace (snd (execute Sample.print Sample.parse Cases.no_extra Sample.first
                      Sample.request_ok Sample.empty_world)) = [] /\
  envs (snd (execute Sample.print Sample.parse Cases.no_extra Sample.first
                     Sample.request_ok Sample.empty_world)) 0 =
    {| invokedHooks := false; sessionId := Some "u1";
       extraCacheKeyData := JNull |}.
Proof.
  pose proof (execute_extra_hook_failure Sample.print Sample.parse
    Cases.no_extra Sample.first Sample.request_ok Sample.empty_world
    (Some "u1") _ (HookFailure "no language") eq_refl eq_refl eq_refl)
    as (H1 & H2 & _ & H3).
  split; [exact H1|]. split; [exact H2|]. exact H3.
Defined.

Lemma willSendResponse_after_execute_witness :
  willSendResponse Sample.first Sample.request_ok
    (snd (execute Sample.print Sample.parse Sample.logged_in Sample.first
                  Sample.request_ok Cases.corrupt_world)) =
  (Returned tt,
   snd (execute Sample.print Sample.parse Sample.logged_in Sample.first
                Sample.request_ok Cases.corrupt_world)).
Proof.
  exact (proj2 (willSendResponse_after_execute Sample.print Sample.parse
    Sample.logged_in Sample.first Sample.request_ok Cases.corrupt_world
    (Some "u1") JNull Sample.request_ok eq_refl eq_refl)).
Defined.



Lemma execute_corrupt_private_entry_witness :
  fst (execute Sample.print Sample.parse Sample.logged_in Sample.first
               Sample.request_ok Cases.corrupt_world) = Thrown SyntaxError /\
  trace (snd (execute Sample.print Sample.parse Sample.logged_in Sample.first
                      Sample.request_ok Cases.corrupt_world)) =
    [read_at Sample.first (with_session Sample.base "u1") Private].
Proof.
  assert (Htext :
    stores Cases.corrupt_world (wrapped (listener_cache Sample.first))
      !! store_key (listener_cache Sample.first)
           (with_session
              (baseCacheKey_of Sample.print Sample.request_ok JNull) "u1")
           Private = Some "{") by (vm_compute; reflexivity).
  exact (execute_corrupt_private_entry Sample.print Sample.parse
           Sample.logged_in Sample.first Sample.request_ok Cases.corrupt_world
           "u1" JNull "{" SyntaxError eq_refl eq_refl Htext eq_refl).
Defined.

Lemma execute_null_private_entry_witness :
  fst (execute Sample.print Sample.parse Sample.logged_in Sample.first
               Sample.request_ok Cases.null_world) =
    Returned Sample.cached_response /\
  trace (snd (execute Sample.print Sample.parse Sample.logged_in Sample.first
                      Sample.request_ok Cases.null_world)) =
    [read_at Sample.first (with_session Sample.base "u1") Private;
     read_at Sample.first Sample.base AuthenticatedPublic].
Proof.
  assert (Htext :
    stores Cases.null_world (wrapped (listener_cache Sample.first))
      !! store_key (listener_cache Sample.first)
           (with_session
              (baseCacheKey_of Sample.print Sample.request_ok JNull) "u1")
           Private = Some "null") by (vm_compute; reflexivity).
  assert (Hpublic :
    entry_at Sample.parse Sample.first Cases.null_world
      (baseCacheKey_of Sample.print Sample.request_ok JNull)
      AuthenticatedPublic = Returned Sample.cached_response)
    by (vm_compute; reflexivity).
  pose proof (execute_null_private_entry Sample.print Sample.parse
    Sample.logged_in Sample.first Sample.request_ok Cases.null_world
    "u1" JNull "null" eq_refl eq_refl Htext eq_refl) as [H1 H2].
  rewrite Hpublic in H1. split; [exact H1|exact H2].
Defined.

Lemma execute_reads_its_cache_witness :
  exists evs,
    trace (snd (execute Sample.print Sample.parse Cases.own_cache
                        Cases.own_listener Sample.request_ok
                        Sample.public_world)) =
      trace Sample.public_world ++ evs /\
    length evs <= 2 /\
    Forall (is_read_of 7) evs.
Proof.
  exact (execute_reads_its_cache Sample.print Sample.parse Cases.own_cache
           Sample.request_failed Sample.empty_world Cases.own_listener _
           Sample.request_ok Sample.public_world eq_refl).
Defined.

Lemma execute_answer_depends_on_its_keys_witness :
  fst (execute Sample.print Sample.parse Sample.logged_in Sample.first
               Sample.request_ok Cases.crowded_world) =
  fst (execute Sample.print Sample.parse Sample.logged_in Sample.first
               Sample.request_ok Sample.public_world).
Proof.
  assert (Hkeys :
    stores Cases.crowded_world 0
      !! store_key (listener_cache Sample.first)
           (with_session
              (baseCacheKey_of Sample.print Sample.request_ok JNull) "u1")
           Private =
    stores Sample.public_world 0
      !! store_key (listener_cache Sample.first)
           (with_session
              (baseCacheKey_of Sample.print Sample.request_ok JNull) "u1")
           Private /\
    stores Cases.crowded_world 0
      !! store_key (listener_cache Sample.first)
           (baseCacheKey_of Sample.print Sample.request_ok JNull)
           AuthenticatedPublic =
    stores Sample.public_world 0
      !! store_key (listener_cache Sample.first)
           (baseCacheKey_of Sample.print Sample.request_ok JNull)
           AuthenticatedPublic)
    by (split; vm_compute; reflexivity).
  exact (execute_answer_depends_on_its_keys Sample.print Sample.parse
           Sample.logged_in Sample.first Sample.request_ok
           Sample.public_world Cases.crowded_world (Some "u1") JNull
           eq_refl eq_refl eq_refl Hkeys).
Defined.


Lemma key_text_names_request_witness :
  key_text Sample.print Sample.request_ab JNull None NoSession =
  key_text Sample.print Sample.request_ab_failed JNull None NoSession /\
  Sample.print (document Sample.request_ab) =
  Sample.print (document Sample.request_ab_failed).
Proof.
  assert (H : key_text Sample.print Sample.request_ab JNull None NoSession =
              key_text Sample.print Sample.request_ab_failed JNull None
                       NoSession) by reflexivity.
  split; [exact H|].
  exact (proj1 (key_text_names_request Sample.print
    Sample.request_ab JNull None NoSession
    Sample.request_ab_failed JNull None NoSession H)).
Defined.

Lemma key_text_names_session_witness :
  key_text Sample.print Sample.request_ok JNull (Some "u1") Private =
  key_text Sample.print Sample.request_ok JNull (Some "u1") Private /\
  Some "u1" = Some "u1" /\ Private = Private.
Proof.
  split; [reflexivity|].
  exact (key_text_names_session Sample.print Sample.request_ok JNull
           (Some "u1") Private (Some "u1") Private eq_refl).
Defined.
